(** * IndicatorFilter: a shallow embedding of
      [maec_to_stix/indicator_extractor/indicator_filter.py]

    The Python class [IndicatorFilter] filters Object History entries by
    contraindicator checking and required-property checking, and prunes
    the properties of the surviving Objects against a path-keyed
    configuration.  The embedding keeps the shape of the source:

    - Python values are a tagged tree ([value]): scalars (strings and
      numbers), [None]-like values, dictionaries and lists;
    - dictionaries are key-unique association lists whose order is the
      order in which [iteritems()] / [keys()] enumerates them;
    - exceptions are explicit ([result]);
    - Object History entries live in a store ([heap]) and lists of entries
      are lists of references, because [prune_objects] assigns to
      [entry.object] in place;
    - what the class calls in [re], [config_parser], cybox and maec is a
      parameter ([Externals]). *)

From Stdlib Require Import List String Ascii ZArith Bool Arith Lia.
From Stdlib Require Import DecimalString Permutation.
Import ListNotations.
Open Scope string_scope.
#[local] Set Warnings "-register-all".

(** ** Python strings *)

Module PyStr.

(** [s.split(sep)] for a one-character separator: never the empty list. *)
Fixpoint split (sep : ascii) (s : string) : list string :=
  match s with
  | EmptyString => [EmptyString]
  | String c rest =>
      if Ascii.eqb c sep then EmptyString :: split sep rest
      else match split sep rest with
           | [] => [String c EmptyString]
           | seg :: segs => String c seg :: segs
           end
  end.

(** [needle in hay] on strings. *)
Fixpoint contains (needle hay : string) : bool :=
  String.prefix needle hay
  || match hay with
     | EmptyString => false
     | String _ rest => contains needle rest
     end.

(** Truth value of a string: the empty string is false. *)
Definition truthy (s : string) : bool :=
  match s with EmptyString => false | String _ _ => true end.

(** Truth value of a string-or-[None]. *)
Definition truthy_opt (s : option string) : bool :=
  match s with Some t => truthy t | None => false end.

(** [x in l] on a list of strings. *)
Definition mem (x : string) (l : list string) : bool :=
  existsb (String.eqb x) l.

End PyStr.

Definition slash : ascii := "/"%char.

(** ** Exceptions *)

Inductive exn : Type :=
| AttributeError   (* [.iteritems()] on something that is not a dict *)
| IndexError       (* [split_key[0]] on an emptied list *)
| KeyError.        (* [d[k]] on a missing key *)

Inductive result (A : Type) : Type :=
| Ok (a : A)
| Raise (e : exn).

Arguments Ok {A} a.
Arguments Raise {A} e.

Definition bind {A B : Type} (m : result A) (f : A -> result B) : result B :=
  match m with
  | Ok a => f a
  | Raise e => Raise e
  end.

Notation "x <- m ;; k" := (bind m (fun x => k))
  (at level 61, m at next level, right associativity).

(** [mapM]: the list-building loop [for x in l: out.append(f(x))]. *)
Fixpoint mapM {A B : Type} (f : A -> result B) (l : list A) : result (list B) :=
  match l with
  | [] => Ok []
  | x :: xs => y <- f x ;; ys <- mapM f xs ;; Ok (y :: ys)
  end.

(** ** Dictionaries *)

Definition dict (V : Type) : Type := list (string * V).

Module Dict.
Section Ops.
Context {V : Type}.

Definition keys (d : dict V) : list string := map fst d.

(** [d.get(k)], [None] when [k] is missing. *)
Fixpoint get (d : dict V) (k : string) : option V :=
  match d with
  | [] => None
  | (k', v) :: rest => if String.eqb k k' then Some v else get rest k
  end.

(** [d[k]]: raises [KeyError] when [k] is missing. *)
Definition item (d : dict V) (k : string) : result V :=
  match get d k with
  | Some v => Ok v
  | None => Raise KeyError
  end.

(** [d[k] = v]: overwrite an existing key, else add the key. *)
Fixpoint set (d : dict V) (k : string) (v : V) : dict V :=
  match d with
  | [] => [(k, v)]
  | (k', v') :: rest =>
      if String.eqb k k' then (k', v) :: rest
      else (k', v') :: set rest k v
  end.

(** [d.update(e)]. *)
Definition update (d e : dict V) : dict V :=
  fold_left (fun acc kv => set acc (fst kv) (snd kv)) e d.

(** [k in d]. *)
Definition has (d : dict V) (k : string) : bool := PyStr.mem k (keys d).

(** [len(d)]; dictionaries are key-unique lists. *)
Definition len (d : dict V) : nat := List.length d.

(** Truth value of a dictionary: [{}] is false. *)
Definition nonempty (d : dict V) : bool :=
  match d with [] => false | _ :: _ => true end.

(** The representation invariant of a dictionary. *)
Definition wf (d : dict V) : Prop := NoDup (keys d).
End Ops.
End Dict.

(** ** Property trees *)

(** Values for which
    [isinstance(v, basestring) or hasattr(v, "__int__")] holds: byte
    strings, integers and truth values.  A [unicode] string with a
    character outside ASCII, on which [str] raises [UnicodeEncodeError]
    (l.51), and floating-point numbers are not values of this type: what
    is proved below is proved of the trees built from these scalars. *)
Inductive scalar : Type :=
| SStr (s : string)
| SInt (z : Z)
| SBool (b : bool).

(** The result of [Object.properties.to_dict()] and its sub-values. *)
#[local] Unset Elimination Schemes.
Inductive value : Type :=
| VScalar (s : scalar)
| VNone
| VDict (d : list (string * value))
| VList (l : list value).
#[local] Set Elimination Schemes.

(** [str(v)] on the scalars above, on which it returns. *)
Definition str (s : scalar) : string :=
  match s with
  | SStr t => t
  | SInt z => NilZero.string_of_int (Z.to_int z)
  | SBool true => "True"
  | SBool false => "False"
  end.

(** A property specification: path -> whitelist patterns (or [None]). *)
Definition spec : Type := dict (option (list string)).

(** ** Configuration and Object History entries *)

Record ObjectTypeSchema : Type := {
  required : spec;
  optional : spec;
  mutually_exclusive : spec
}.

Record Config : Type := {
  contraindicators : list string;
  modifiers : list string;
  supported_objects : dict ObjectTypeSchema
}.

(** [cybox.common.ObjectProperties], as the class reads it: the attribute
    [_XSI_TYPE] and the dictionary that [to_dict()] returns. *)
Record ObjectProperties : Type := {
  _XSI_TYPE : string;
  fields : dict value
}.

Definition to_dict (p : ObjectProperties) : value := VDict (fields p).

(** [cybox.core.Object].  The class reads [id_] at l.25 into a variable
    that it does not use; the identifier that cybox gives to the Object
    made at l.157 is left out ([None]), and nothing below speaks of it. *)
Record Object : Type := {
  id_ : option string;
  properties : ObjectProperties
}.

(** An entry, as the class reads it: its Object and what
    [get_action_context()] returns for it, a list of (action name,
    association type) pairs. *)
Record ObjectHistoryEntry : Type := {
  object : Object;
  action_context : list (option string * option string)
}.

(** Entries are Python objects: a list of entries is a list of references
    into a store. *)
Definition loc : Type := nat.
Definition heap : Type := loc -> ObjectHistoryEntry.

(** ** What the module imports

    None of the following is defined in [indicator_filter.py].  Each is a
    parameter of the development, taken where it returns: what is proved
    with [Externals] as a parameter is proved for every value that the
    libraries can return.

    - [re.match] is the regular-expression library's start-anchored
      match; only the truth value of its result is used (patterns that do
      not compile are configuration errors and are left out).
    - [ConfigParser.flatten_dict] is defined in [config_parser.py]; only
      the length of its result is used.
    - [ObjectProperties.from_dict] is cybox's parser (l.158).  Nothing is
      assumed of the properties it builds: neither their [_XSI_TYPE] nor
      what their [to_dict()] returns.
    - [get_action_context] is the method of maec's [ObjectHistoryEntry]
      (l.27).  It derives the pairs from the Actions that the entry holds,
      which [prune_objects] does not change, and from the Object of the
      entry, which it replaces: [get_action_context entry o] is what the
      method returns for the entry at reference [entry] once its Object
      is [o]. *)
Class Externals : Type := {
  re_match : string -> string -> bool;
  flatten_dict : list (string * value) -> list (string * value);
  from_dict : dict value -> ObjectProperties;
  get_action_context : loc -> Object -> list (option string * option string)
}.

(** [entry.object = o]: the entry holds [o], and its action context is
    the one derived for [o]. *)
Definition set_object {E : Externals} (h : heap) (entry : loc) (o : Object)
  : heap :=
  fun l =>
    if Nat.eqb l entry
    then {| object := o; action_context := get_action_context entry o |}
    else h l.

(** ** The libraries of the runs

    The runs at the end of the file need the libraries at concrete
    inputs. *)

(** Modelled from the spec: [ConfigParser.flatten_dict] ([config_parser.py]
    is not part of the sources at hand).  Flattening descends mappings and
    sequences and emits one leaf per scalar reached, under the accumulated
    ["/"]-joined path. *)
Fixpoint flatten_value (parent_key : string) (v : value)
  : list (string * value) :=
  match v with
  | VDict items =>
      (fix go (items : list (string * value)) : list (string * value) :=
         match items with
         | [] => []
         | (k, pv) :: rest =>
             let new_key :=
               if PyStr.truthy parent_key then parent_key ++ "/" ++ k else k in
             match pv with
             | VScalar _ => (new_key, pv) :: go rest
             | VNone => go rest
             | VDict _ => (flatten_value new_key pv ++ go rest)%list
             | VList l =>
                 ((fix each (l : list value) : list (string * value) :=
                    match l with
                    | [] => []
                    | x :: xs => (flatten_value new_key x ++ each xs)%list
                    end) l ++ go rest)%list
             end
         end) items
  | _ => []
  end.

Definition flatten_dict_model (d : list (string * value))
  : list (string * value) :=
  flatten_value "" (VDict d).

(** Modelled from the spec: [ObjectProperties.from_dict] (cybox is not
    part of the sources at hand).  The new object carries only the pruned
    tree: the properties built from a dictionary have that dictionary as
    their dictionary form, and its ["xsi:type"] entry as their type
    tag. *)
Definition from_dict_model (d : dict value) : ObjectProperties :=
  {| _XSI_TYPE := match Dict.get d "xsi:type" with
                  | Some (VScalar (SStr t)) => t
                  | _ => ""
                  end;
     fields := d |}.

(** In the runs the Actions refer to the Objects that the entries hold
    at the call: none refers to an Object made by [prune_objects], whose
    action context is empty. *)
Definition no_action_context (entry : loc) (o : Object)
  : list (option string * option string) := [].

(** Literal patterns: a pattern without metacharacters matches at the start
    of a string exactly when it is a prefix of it.  The parser and the
    derivation of the action context are left open. *)
Definition literal_externals_with
  (parse : dict value -> ObjectProperties)
  (context : loc -> Object -> list (option string * option string))
  : Externals :=
  {| re_match := String.prefix;
     flatten_dict := flatten_dict_model;
     from_dict := parse;
     get_action_context := context |}.

Definition literal_externals : Externals :=
  literal_externals_with from_dict_model no_action_context.

(** ** class IndicatorFilter *)

Module IndicatorFilter.
Section Methods.
Context {E : Externals}.

(** *** [_contraindicator_check] *)

(** [for contraind in self.config.config_dict["contraindicators"]] *)
Fixpoint contraindicators_loop (cs : list string) (action_name : string)
  (contraindication : bool) : bool :=
  match cs with
  | [] => contraindication
  | contraind :: rest =>
      if PyStr.contains contraind action_name then true
      else contraindicators_loop rest action_name contraindication
  end.

(** [for modifier in self.config.config_dict["modifiers"]] *)
Fixpoint modifiers_loop (ms : list string) (action_name association_type : string)
  (contraindication : bool) : bool :=
  match ms with
  | [] => contraindication
  | modifier :: rest =>
      if PyStr.contains modifier action_name
         && String.eqb association_type "input"
      then true
      else modifiers_loop rest action_name association_type contraindication
  end.

(** [for context_entry in action_context] *)
Fixpoint action_context_loop (config : Config)
  (action_context : list (option string * option string))
  (contraindication : bool) : bool :=
  match action_context with
  | [] => contraindication
  | (action_name, association_type) :: rest =>
      if contraindication then contraindication
      else
        let contraindication :=
          match action_name, association_type with
          | Some name, Some assoc =>
              if PyStr.truthy name && PyStr.truthy assoc then
                modifiers_loop (modifiers config) name assoc
                  (contraindicators_loop (contraindicators config) name
                     contraindication)
              else contraindication
          | _, _ => contraindication
          end in
        action_context_loop config rest contraindication
  end.

Definition _contraindicator_check (config : Config)
  (object_history_entry : ObjectHistoryEntry) : bool :=
  action_context_loop config (action_context object_history_entry) false.

(** *** [_whitelist_test] *)

(** [for whitelist_pattern in whitelist] *)
Fixpoint whitelist_loop (whitelist : list string) (element_value : scalar)
  : bool :=
  match whitelist with
  | [] => true
  | whitelist_pattern :: rest =>
      if re_match whitelist_pattern (str element_value) then false
      else whitelist_loop rest element_value
  end.

Definition _whitelist_test (element_value : scalar)
  (whitelist : option (list string)) : bool :=
  match whitelist with
  | Some ((_ :: _) as patterns) => whitelist_loop patterns element_value
  | _ => true
  end.

(** *** [_prune_object_properties] *)

(** [l[-1]] on a non-empty list. *)
Definition last_item (l : list string) : string := last l "".

(** [for object_path in supported_properties.keys()], the loop of the
    nested-scalar branch.  [split_key] is built once before the loop and
    [split_key.pop()] changes it for the iterations that follow. *)
Fixpoint object_paths_loop (supported_properties : spec)
  (object_paths : list string) (property_name : string)
  (property_value : scalar) (split_key : list string)
  (pruned_dict : dict value) : result (dict value) :=
  match object_paths with
  | [] => Ok pruned_dict
  | object_path :: rest =>
      let split_object_path := PyStr.split slash object_path in
      match split_key with
      | [] => Raise IndexError
      | root :: _ =>
          if String.eqb root (hd "" split_object_path) then
            let split_key :=
              if String.eqb (last_item split_key) "value"
              then removelast split_key else split_key in
            let match_ :=
              forallb (fun path_value =>
                         PyStr.mem path_value (tl split_object_path))
                      (tl split_key) in
            if match_ then
              whitelist <- Dict.item supported_properties object_path ;;
              object_paths_loop supported_properties rest property_name
                property_value split_key
                (if _whitelist_test property_value whitelist
                 then Dict.set pruned_dict property_name
                        (VScalar property_value)
                 else pruned_dict)
            else
              object_paths_loop supported_properties rest property_name
                property_value split_key pruned_dict
          else
            object_paths_loop supported_properties rest property_name
              property_value split_key pruned_dict
      end
  end.

(** The scalar branch of the loop body. *)
Definition prune_scalar (supported_properties : spec)
  (parent_key : option string) (property_name : string)
  (property_value : scalar) (pruned_dict : dict value)
  : result (dict value) :=
  if negb (PyStr.truthy_opt parent_key)
     && Dict.has supported_properties property_name
  then
    whitelist <- Dict.item supported_properties property_name ;;
    if _whitelist_test property_value whitelist
    then Ok (Dict.set pruned_dict property_name (VScalar property_value))
    else Ok pruned_dict
  else
    match parent_key with
    | Some parent =>
        if PyStr.truthy parent then
          let split_key :=
            (PyStr.split slash parent ++ [property_name])%list in
          object_paths_loop supported_properties
            (Dict.keys supported_properties) property_name property_value
            split_key pruned_dict
        else Ok pruned_dict
    | None => Ok pruned_dict
    end.

(** [updated_key] *)
Definition updated_key (parent_key : option string) (property_name : string)
  : string :=
  match parent_key with
  | Some parent =>
      if PyStr.truthy parent then parent ++ "/" ++ property_name
      else property_name
  | None => property_name
  end.

(** [{} not in pruned_list] *)
Definition no_empty_dict (pruned_list : list (dict value)) : bool :=
  forallb Dict.nonempty pruned_list.

(** [if pruned_nested_dict: pruned_dict[property_name] = pruned_nested_dict] *)
Definition keep_dict (pruned_dict : dict value) (property_name : string)
  (pruned_nested_dict : dict value) : dict value :=
  if Dict.nonempty pruned_nested_dict
  then Dict.set pruned_dict property_name (VDict pruned_nested_dict)
  else pruned_dict.

(** [if pruned_list and {} not in pruned_list:
       pruned_dict[property_name] = pruned_list] *)
Definition keep_list (pruned_dict : dict value) (property_name : string)
  (pruned_list : list (dict value)) : dict value :=
  if negb (Nat.eqb (List.length pruned_list) 0) && no_empty_dict pruned_list
  then Dict.set pruned_dict property_name (VList (map VDict pruned_list))
  else pruned_dict.

(** The method itself.  [object_dict] is whatever the caller passes:
    [.iteritems()] raises on anything that is not a dictionary. *)
Fixpoint _prune_object_properties (supported_properties : spec)
  (parent_key : option string) (object_dict : value) {struct object_dict}
  : result (dict value) :=
  match object_dict with
  | VDict items =>
      (fix loop (items : list (string * value)) (pruned_dict : dict value)
         {struct items} : result (dict value) :=
         match items with
         | [] => Ok pruned_dict
         | (property_name, property_value) :: rest =>
             let updated := updated_key parent_key property_name in
             match property_value with
             | VScalar sv =>
                 pruned_dict <-
                   prune_scalar supported_properties parent_key
                     property_name sv pruned_dict ;;
                 loop rest pruned_dict
             | VDict _ =>
                 pruned_nested_dict <-
                   _prune_object_properties supported_properties
                     (Some updated) property_value ;;
                 loop rest (keep_dict pruned_dict property_name
                              pruned_nested_dict)
             | VList l =>
                 pruned_list <-
                   (fix each (l : list value) : result (list (dict value)) :=
                      match l with
                      | [] => Ok []
                      | list_item :: more =>
                          pruned_item <-
                            _prune_object_properties supported_properties
                              (Some updated) list_item ;;
                          pruned_more <- each more ;;
                          Ok (pruned_item :: pruned_more)
                      end) l ;;
                 loop rest (keep_list pruned_dict property_name pruned_list)
             | VNone => loop rest pruned_dict
             end
         end) items []
  | _ => Raise AttributeError
  end.

(** *** [_required_property_check] *)

Definition _required_property_check (object : Object)
  (object_properties_dict : ObjectTypeSchema) : result bool :=
  let properties_found := true in
  let required_properties := required object_properties_dict in
  let mutually_exclusive_properties :=
    mutually_exclusive object_properties_dict in
  pruned_properties <-
    _prune_object_properties required_properties None
      (to_dict (properties object)) ;;
  let properties_found :=
    if negb (Nat.eqb (List.length (flatten_dict pruned_properties))
                     (Dict.len required_properties))
    then false else properties_found in
  if Dict.nonempty mutually_exclusive_properties then
    mutually_exclusive_pruned <-
      _prune_object_properties mutually_exclusive_properties None
        (to_dict (properties object)) ;;
    Ok (if negb (Nat.eqb (Dict.len mutually_exclusive_pruned) 1)
        then false else properties_found)
  else Ok properties_found.

(** *** [prune_objects] *)

(** [full_properties] of an object type. *)
Definition full_properties (object_type_conf : ObjectTypeSchema) : spec :=
  Dict.update
    (Dict.update (Dict.update [] (required object_type_conf))
       (optional object_type_conf))
    (mutually_exclusive object_type_conf).

(** [for entry in candidate_indicator_objects]: the store and the list
    built so far are threaded through; an exception leaves the store as
    it was when it was raised. *)
Fixpoint prune_objects_loop (config : Config)
  (candidate_indicator_objects : list loc) (h : heap)
  (final_indicator_objects : list loc) : heap * result (list loc) :=
  match candidate_indicator_objects with
  | [] => (h, Ok final_indicator_objects)
  | entry :: rest =>
      let object := object (h entry) in
      let xsi_type := _XSI_TYPE (properties object) in
      match Dict.get (supported_objects config) xsi_type with
      | Some object_type_conf =>
          if negb (_contraindicator_check config (h entry)) then
            match _required_property_check object object_type_conf with
            | Raise e => (h, Raise e)
            | Ok false => prune_objects_loop config rest h
                            final_indicator_objects
            | Ok true =>
                match _prune_object_properties
                        (full_properties object_type_conf) None
                        (to_dict (properties object)) with
                | Raise e => (h, Raise e)
                | Ok full_pruned_properties =>
                    let full_pruned_properties :=
                      Dict.set full_pruned_properties "xsi:type"
                        (VScalar (SStr xsi_type)) in
                    let pruned_object :=
                      {| id_ := None;
                         properties := from_dict full_pruned_properties |} in
                    prune_objects_loop config rest
                      (set_object h entry pruned_object)
                      (final_indicator_objects ++ [entry])%list
                end
            end
          else prune_objects_loop config rest h final_indicator_objects
      | None => prune_objects_loop config rest h final_indicator_objects
      end
  end.

Definition prune_objects (config : Config) (h : heap)
  (candidate_indicator_objects : list loc) : heap * result (list loc) :=
  prune_objects_loop config candidate_indicator_objects h [].

End Methods.
End IndicatorFilter.

(** ** The loops as functions of one entry

    The same computations, cut at the loop bodies: what one entry
    contributes to [pruned_dict], independently of the dictionary built so
    far.  The lemmas of [PruneFacts] relate them to the method. *)

Module View.
Section View.
Context {E : Externals}.
Import IndicatorFilter.

(** Whether the loop over the object paths stores the property. *)
Fixpoint object_paths_hit (supported_properties : spec)
  (object_paths : list string) (property_value : scalar)
  (split_key : list string) : result bool :=
  match object_paths with
  | [] => Ok false
  | object_path :: rest =>
      let split_object_path := PyStr.split slash object_path in
      match split_key with
      | [] => Raise IndexError
      | root :: _ =>
          if String.eqb root (hd "" split_object_path) then
            let split_key :=
              if String.eqb (last_item split_key) "value"
              then removelast split_key else split_key in
            if forallb (fun path_value =>
                          PyStr.mem path_value (tl split_object_path))
                       (tl split_key)
            then
              whitelist <- Dict.item supported_properties object_path ;;
              hit <- object_paths_hit supported_properties rest
                       property_value split_key ;;
              Ok (_whitelist_test property_value whitelist || hit)
            else
              object_paths_hit supported_properties rest property_value
                split_key
          else
            object_paths_hit supported_properties rest property_value
              split_key
      end
  end.

(** Whether the scalar branch stores the property. *)
Definition scalar_kept (supported_properties : spec)
  (parent_key : option string) (property_name : string)
  (property_value : scalar) : result bool :=
  if negb (PyStr.truthy_opt parent_key)
     && Dict.has supported_properties property_name
  then
    whitelist <- Dict.item supported_properties property_name ;;
    Ok (_whitelist_test property_value whitelist)
  else
    match parent_key with
    | Some parent =>
        if PyStr.truthy parent then
          object_paths_hit supported_properties
            (Dict.keys supported_properties) property_value
            (PyStr.split slash parent ++ [property_name])%list
        else Ok false
    | None => Ok false
    end.

(** What the loop body stores under [property_name], if anything. *)
Definition entry_outcome (supported_properties : spec)
  (parent_key : option string) (property_name : string)
  (property_value : value) : result (option value) :=
  let updated := updated_key parent_key property_name in
  match property_value with
  | VScalar sv =>
      kept <- scalar_kept supported_properties parent_key property_name sv ;;
      Ok (if kept then Some property_value else None)
  | VNone => Ok None
  | VDict _ =>
      nested <- _prune_object_properties supported_properties (Some updated)
                  property_value ;;
      Ok (if Dict.nonempty nested then Some (VDict nested) else None)
  | VList l =>
      pruned_list <-
        mapM (_prune_object_properties supported_properties (Some updated))
             l ;;
      Ok (if negb (Nat.eqb (List.length pruned_list) 0)
             && no_empty_dict pruned_list
          then Some (VList (map VDict pruned_list)) else None)
  end.

Definition store (pruned_dict : dict value) (property_name : string)
  (outcome : option value) : dict value :=
  match outcome with
  | Some v => Dict.set pruned_dict property_name v
  | None => pruned_dict
  end.

(** [for property_name, property_value in object_dict.iteritems()] *)
Fixpoint prune_items (supported_properties : spec)
  (parent_key : option string) (items : list (string * value))
  (pruned_dict : dict value) : result (dict value) :=
  match items with
  | [] => Ok pruned_dict
  | (property_name, property_value) :: rest =>
      outcome <- entry_outcome supported_properties parent_key
                   property_name property_value ;;
      prune_items supported_properties parent_key rest
        (store pruned_dict property_name outcome)
  end.

(** What one object path contributes once [split_key] no longer changes. *)
Definition candidate_hit (supported_properties : spec)
  (property_value : scalar) (segments : list string)
  (object_path : string) : bool :=
  String.eqb (hd "" segments) (hd "" (PyStr.split slash object_path))
  && forallb (fun path_value =>
                PyStr.mem path_value (tl (PyStr.split slash object_path)))
             (tl segments)
  && match Dict.get supported_properties object_path with
     | Some whitelist => _whitelist_test property_value whitelist
     | None => false
     end.

(** The body of the loop of [prune_objects]: skip the entry ([None]) or
    replace its Object. *)
Definition entry_step (config : Config) (e : ObjectHistoryEntry)
  : result (option Object) :=
  let xsi_type := _XSI_TYPE (properties (object e)) in
  match Dict.get (supported_objects config) xsi_type with
  | Some object_type_conf =>
      if negb (_contraindicator_check config e) then
        found <- _required_property_check (object e) object_type_conf ;;
        if found then
          full_pruned_properties <-
            _prune_object_properties (full_properties object_type_conf) None
              (to_dict (properties (object e))) ;;
          Ok (Some {| id_ := None;
                      properties :=
                        from_dict
                          (Dict.set full_pruned_properties "xsi:type"
                             (VScalar (SStr xsi_type))) |})
        else Ok None
      else Ok None
  | None => Ok None
  end.

End View.
End View.

(** ** Shapes of property trees *)

(** Every element of every list is a mapping, at every depth. *)
Inductive lists_of_mappings : value -> Prop :=
| lom_scalar (s : scalar) : lists_of_mappings (VScalar s)
| lom_none : lists_of_mappings VNone
| lom_dict (d : list (string * value)) :
    Forall (fun kv => lists_of_mappings (snd kv)) d ->
    lists_of_mappings (VDict d)
| lom_list (l : list value) :
    Forall (fun x => (exists d, x = VDict d) /\ lists_of_mappings x) l ->
    lists_of_mappings (VList l).

(** [within r t]: every key of [r], at every depth, is a key of [t] at
    the same position; scalars are the same and lists keep their length. *)
Inductive within : value -> value -> Prop :=
| within_scalar (s : scalar) : within (VScalar s) (VScalar s)
| within_dict (d d' : list (string * value)) :
    Forall (fun kv => exists v', In (fst kv, v') d' /\ within (snd kv) v') d ->
    within (VDict d) (VDict d')
| within_list (l l' : list value) :
    Forall2 within l l' -> within (VList l) (VList l').

(** ** The rules in the specification's words *)

Module SpecWords.
Section SpecWords.
Context {E : Externals}.
Import IndicatorFilter.

(** If the last segment is literally [value], drop it. *)
Definition drop_value_wrapper (segments : list string) : list string :=
  if String.eqb (last segments "") "value"
  then removelast segments else segments.

(** "candidates whose root segment equals the root segment of currentPath"
    and "every remaining non-root segment of currentPath appears among the
    candidate's non-root segments" *)
Definition candidate_matches (current_path candidate : string) : bool :=
  let path_segments := PyStr.split slash current_path in
  let candidate_segments := PyStr.split slash candidate in
  String.eqb (hd "" path_segments) (hd "" candidate_segments)
  && forallb (fun segment => PyStr.mem segment (tl candidate_segments))
             (tl (drop_value_wrapper path_segments)).

(** "include key -> value iff WhitelistTester.test(value, spec[candidate])
    is true", for some matching candidate. *)
Definition nested_scalar_included (supported_properties : spec)
  (current_path : string) (property_value : scalar) : bool :=
  existsb
    (fun candidate =>
       candidate_matches current_path candidate
       && match Dict.get supported_properties candidate with
          | Some whitelist => _whitelist_test property_value whitelist
          | None => false
          end)
    (Dict.keys supported_properties).

(** For each entry with both action name and association type non-empty:
    the action name contains any configured contraindicator substring,
    or it contains any configured modifier substring and the association
    type equals [input]. *)
Definition pair_contraindicates (config : Config)
  (pair : option string * option string) : bool :=
  match pair with
  | (Some action_name, Some association_type) =>
      PyStr.truthy action_name && PyStr.truthy association_type
      && (existsb (fun c => PyStr.contains c action_name)
                  (contraindicators config)
          || existsb (fun m => PyStr.contains m action_name)
                     (modifiers config)
             && String.eqb association_type "input")
  | _ => false
  end.

(** The three tests an entry has to pass, on the entry as it is in the
    store: supported type tag, no contraindication, required properties. *)
Definition accepts (config : Config) (e : ObjectHistoryEntry) : bool :=
  match Dict.get (supported_objects config)
                 (_XSI_TYPE (properties (object e))) with
  | Some object_type_conf =>
      negb (_contraindicator_check config e)
      && match _required_property_check (object e) object_type_conf with
         | Ok true => true
         | _ => false
         end
  | None => false
  end.

(** The Object that replaces the Object of an accepted entry. *)
Definition replaces (config : Config) (old new : Object) : Prop :=
  exists object_type_conf full_pruned_properties,
    Dict.get (supported_objects config) (_XSI_TYPE (properties old))
    = Some object_type_conf
    /\ _prune_object_properties (full_properties object_type_conf) None
         (to_dict (properties old)) = Ok full_pruned_properties
    /\ new = {| id_ := None;
                properties :=
                  from_dict
                    (Dict.set full_pruned_properties "xsi:type"
                       (VScalar (SStr (_XSI_TYPE (properties old))))) |}.

(** No configured path has ["value"] as its root segment. *)
Definition no_value_root (supported_properties : spec) : Prop :=
  forall object_path,
    In object_path (Dict.keys supported_properties) ->
    hd "" (PyStr.split slash object_path) <> "value".

End SpecWords.
End SpecWords.

(** ** Properties proved by induction on the tree *)

Module Invariants.
Section Invariants.
Context {E : Externals}.
Import IndicatorFilter View SpecWords.

(** A dictionary whose every entry the loop body stores unchanged. *)
Definition fixed (supported_properties : spec) (parent_key : option string)
  (d : dict value) : Prop :=
  Dict.wf d
  /\ forall k v,
       In (k, v) d ->
       entry_outcome supported_properties parent_key k v = Ok (Some v).

(** Pruning the result of pruning [v] changes nothing. *)
Definition idempotent_at (v : value) : Prop :=
  forall sp parent r,
    _prune_object_properties sp parent v = Ok r ->
    _prune_object_properties sp parent (VDict r) = Ok r.

(** The result of pruning [v] lies within [v]. *)
Definition within_at (v : value) : Prop :=
  forall sp parent r,
    _prune_object_properties sp parent v = Ok r -> within (VDict r) v.

(** Pruning [v] returns only if the lists of [v] hold mappings. *)
Definition shaped_at (v : value) : Prop :=
  forall sp parent r,
    _prune_object_properties sp parent v = Ok r -> lists_of_mappings v.

(** Pruning [v] returns if the lists of [v] hold mappings and no
    configured path is rooted at ["value"]. *)
Definition total_at (v : value) : Prop :=
  lists_of_mappings v ->
  forall sp parent, no_value_root sp ->
    match v with
    | VDict _ => exists r, _prune_object_properties sp parent v = Ok r
    | VList l =>
        exists pl, mapM (_prune_object_properties sp parent) l = Ok pl
    | _ => True
    end.

End Invariants.
End Invariants.

(** ** Inputs of the runs below *)

Module Inputs.

(** Two paths under the same root, neither mentioning ["value"]. *)
Definition two_paths : spec := [("a/x", Some []); ("a/y", Some [])].

(** A scalar under two nested ["value"] keys. *)
Definition doubly_wrapped : value :=
  VDict [("a", VDict [("value", VDict [("value", VScalar (SStr "v"))])])].

(** Three paths rooted at ["value"]. *)
Definition value_rooted : spec :=
  [("value/a", Some []); ("value/b", Some []); ("value/c", Some [])].

Definition value_in_value : value :=
  VDict [("value", VDict [("value", VScalar (SStr "v"))])].

End Inputs.

Module Scenarios.

Definition text (s : string) : value := VScalar (SStr s).

(** One supported type with one required path. *)
Definition file_schema : ObjectTypeSchema :=
  {| required := [("Properties/File_Name", Some [])];
     optional := [];
     mutually_exclusive := [] |}.

Definition file_config : Config :=
  {| contraindicators := ["Delete"];
     modifiers := ["Modify"];
     supported_objects := [("FileObj", file_schema)] |}.

Definition file_object (fields : dict value) : Object :=
  {| id_ := Some "object-1";
     properties := {| _XSI_TYPE := "FileObj"; fields := fields |} |}.

Definition named_file : ObjectHistoryEntry :=
  {| object :=
       file_object [("Properties", VDict [("File_Name", text "evil.exe")])];
     action_context := [] |}.

Definition nameless_file : ObjectHistoryEntry :=
  {| object := file_object [("Properties", VDict [])];
     action_context := [] |}.

Definition deleted_file : ObjectHistoryEntry :=
  {| object :=
       file_object [("Properties", VDict [("File_Name", text "evil.exe")])];
     action_context := [(Some "DeleteFile", Some "output")] |}.

(** Store: entry 0 has a name, entry 1 has none, the others were deleted. *)
Definition file_store : heap :=
  fun l =>
    match l with
    | 0 => named_file
    | 1 => nameless_file
    | _ => deleted_file
    end.

(** A sequence with an element that prunes to nothing. *)
Definition hash_spec : spec := [("Hashes/Type", Some [])].

Definition hashes : dict value :=
  [("Hashes", VList [VDict [("Type", text "MD5")];
                     VDict [("Other", text "x")]])].

(** Two alternatives, of which exactly one is to be present. *)
Definition hash_schema : ObjectTypeSchema :=
  {| required := [];
     optional := [];
     mutually_exclusive :=
       [("Properties/MD5", Some []); ("Properties/SHA1", Some [])] |}.

Definition md5_only : Object :=
  file_object [("Properties", VDict [("MD5", text "d41d8cd9")])].

(** The same path required without patterns and optional with one. *)
Definition colliding_schema : ObjectTypeSchema :=
  {| required := [("file_name", Some [])];
     optional := [("file_name", Some ["x"])];
     mutually_exclusive := [] |}.

Definition colliding_config : Config :=
  {| contraindicators := [];
     modifiers := [];
     supported_objects := [("FileObjectType", colliding_schema)] |}.

Definition xyz_file : ObjectHistoryEntry :=
  {| object :=
       {| id_ := Some "object-1";
          properties :=
            {| _XSI_TYPE := "FileObjectType";
               fields := [("file_name", text "xyz");
                          ("xsi:type", text "FileObjectType")] |} |};
     action_context := [] |}.

Definition xyz_store : heap := fun _ => xyz_file.

(** A list element that is not a mapping, in an Object of the supported
    type. *)
Definition broken_file : ObjectHistoryEntry :=
  {| object := file_object [("Hashes", VList [text "MD5"])];
     action_context := [] |}.

(** Store: entry 0 has a name, the others hold the broken list. *)
Definition broken_store : heap :=
  fun l =>
    match l with
    | 0 => named_file
    | _ => broken_file
    end.

End Scenarios.

(** ** Shapes of results *)

(** A tree without [None]-like values, empty dictionaries and empty
    lists below its root, and whose lists hold dictionaries. *)
Inductive compact : value -> Prop :=
| compact_scalar (s : scalar) : compact (VScalar s)
| compact_dict (d : list (string * value)) :
    d <> [] ->
    Forall (fun kv => compact (snd kv)) d ->
    compact (VDict d)
| compact_list (l : list value) :
    l <> [] ->
    Forall (fun x => (exists d, x = VDict d) /\ compact x) l ->
    compact (VList l).

(** [subseq l l']: [l] is [l'] with some of its elements left out. *)
Inductive subseq {A : Type} : list A -> list A -> Prop :=
| subseq_nil : subseq [] []
| subseq_skip (x : A) (l l' : list A) : subseq l l' -> subseq l (x :: l')
| subseq_take (x : A) (l l' : list A) :
    subseq l l' -> subseq (x :: l) (x :: l').

Module FurtherInvariants.
Section FurtherInvariants.
Context {E : Externals}.
Import IndicatorFilter View SpecWords.

(** Every value of the result of pruning [v] is compact. *)
Definition compact_at (v : value) : Prop :=
  forall sp parent r,
    _prune_object_properties sp parent v = Ok r ->
    Forall (fun kv => compact (snd kv)) r.

(** Pruning [v] does not raise [KeyError]. *)
Definition no_KeyError_at (v : value) : Prop :=
  forall sp parent,
    _prune_object_properties sp parent v <> Raise KeyError.

(** Against the empty specification nothing is kept. *)
Definition nothing_kept_at (v : value) : Prop :=
  lists_of_mappings v ->
  forall parent,
    match v with
    | VDict _ => _prune_object_properties [] parent v = Ok []
    | VList l =>
        mapM (_prune_object_properties [] parent) l
        = Ok (map (fun _ => []) l)
    | _ => True
    end.

End FurtherInvariants.
End FurtherInvariants.

(** ** Inputs of the further runs *)

Module FurtherInputs.
Import Scenarios.

Definition name_spec : spec := [("Properties/File_Name", Some [])].

Definition wrapped_name : dict value := [("value", text "evil.exe")].

Definition top_spec : spec := [("Name", Some ["tmp"]); ("Size", None)].

Definition top_object : dict value :=
  [("Name", text "evil.exe"); ("Size", VScalar (SInt 42));
   ("Note", VNone); ("Properties", VDict [("File_Name", text "a.txt")])].

Definition left_part : dict value := [("Name", text "evil.exe")].

Definition right_part : dict value :=
  [("Properties", VDict [("File_Name", text "a.txt")])].

Definition both_spec : spec :=
  [("Name", Some []); ("Properties/File_Name", Some [])].

Definition empty_contraindicator : Config :=
  {| contraindicators := [""]; modifiers := []; supported_objects := [] |}.

Definition created_file : ObjectHistoryEntry :=
  {| object := file_object [];
     action_context := [(Some "CreateFile", Some "output")] |}.

Definition reordered_config : Config :=
  {| contraindicators := ["Delete"; "Delete"];
     modifiers := ["Modify"];
     supported_objects := [] |}.

(** A list element that is not a mapping, in an Object of an unsupported
    type. *)
Definition odd_entry : ObjectHistoryEntry :=
  {| object :=
       {| id_ := None;
          properties :=
            {| _XSI_TYPE := "OtherObj";
               fields := [("Hashes", VList [text "MD5"])] |} |};
     action_context := [] |}.

Definition odd_store : heap := fun _ => odd_entry.

Definition more_strings_config : Config :=
  {| contraindicators := ["Terminate"; "Delete"];
     modifiers := ["Modify"; "Write"];
     supported_objects := [] |}.

End FurtherInputs.

(** * Facts *)

(** ** Strings and lists *)

Lemma mem_In (x : string) (l : list string) :
  PyStr.mem x l = true <-> In x l.
Proof.
  unfold PyStr.mem. rewrite existsb_exists. split.
  - intros [y [Hy Heq]]. apply String.eqb_eq in Heq. now subst.
  - intros H. exists x. split; [assumption | apply String.eqb_refl].
Qed.

Lemma mem_not_In (x : string) (l : list string) :
  PyStr.mem x l = false <-> ~ In x l.
Proof.
  rewrite <- mem_In. destruct (PyStr.mem x l); split; congruence.
Qed.

Lemma split_nonempty (sep : ascii) (s : string) : PyStr.split sep s <> [].
Proof.
  destruct s as [| c rest]; simpl; [discriminate |].
  destruct (Ascii.eqb c sep); [discriminate |].
  destruct (PyStr.split sep rest); discriminate.
Qed.

(** [contains] is Python's substring test. *)
Lemma prefix_app (n h : string) :
  String.prefix n h = true <-> exists post, h = n ++ post.
Proof.
  revert h. induction n as [| c n IH]; intros h; simpl.
  - split; [intros _; now exists h | intros _; now destruct h].
  - destruct h as [| c' h']; simpl.
    + split; [discriminate | intros [post H]; discriminate].
    + destruct (Ascii.ascii_dec c c') as [-> | Hne].
      * rewrite IH. split; intros [post H]; exists post; congruence.
      * split; [discriminate | intros [post H]; congruence].
Qed.

Lemma contains_substring (n h : string) :
  PyStr.contains n h = true <-> exists pre post, h = pre ++ n ++ post.
Proof.
  revert n. induction h as [| c h IH]; intros n.
  - cbn [PyStr.contains]. rewrite orb_false_r, prefix_app. split.
    + intros [post H]. exists "", post. exact H.
    + intros [pre [post H]]. destruct pre; simpl in H; [now exists post | discriminate].
  - cbn [PyStr.contains]. rewrite orb_true_iff, prefix_app, IH. split.
    + intros [[post H] | [pre [post H]]].
      * exists "", post. exact H.
      * exists (String c pre), post. simpl. now rewrite H.
    + intros [pre [post H]]. destruct pre as [| c' pre]; simpl in H.
      * left. now exists post.
      * right. exists pre, post. congruence.
Qed.

(** ** Dictionaries *)

Module DictFacts.
Section DictFacts.
Context {V : Type}.
Implicit Types (d : dict V) (k : string) (v : V).

Lemma set_idem d k v : Dict.set (Dict.set d k v) k v = Dict.set d k v.
Proof.
  induction d as [| [k' v'] d IH]; simpl.
  - now rewrite String.eqb_refl.
  - destruct (String.eqb k k') eqn:Hk; simpl; rewrite Hk; [reflexivity | now rewrite IH].
Qed.

Lemma set_fresh d k v :
  ~ In k (Dict.keys d) -> Dict.set d k v = (d ++ [(k, v)])%list.
Proof.
  induction d as [| [k' v'] d IH]; simpl; intros Hk; [reflexivity |].
  destruct (String.eqb k k') eqn:Heq.
  - apply String.eqb_eq in Heq. subst. tauto.
  - rewrite IH; tauto.
Qed.

Lemma keys_set d k v :
  Dict.keys (Dict.set d k v)
  = if PyStr.mem k (Dict.keys d) then Dict.keys d
    else (Dict.keys d ++ [k])%list.
Proof.
  induction d as [| [k' v'] d IH]; simpl; [reflexivity |].
  destruct (String.eqb k k') eqn:Heq; simpl.
  - apply String.eqb_eq in Heq. now subst.
  - unfold Dict.keys in *. rewrite IH.
    now destruct (PyStr.mem k (map fst d)).
Qed.

Lemma set_wf d k v : Dict.wf d -> Dict.wf (Dict.set d k v).
Proof.
  unfold Dict.wf. rewrite keys_set. intros H.
  destruct (PyStr.mem k (Dict.keys d)) eqn:Hm; [assumption |].
  apply mem_not_In in Hm.
  apply Permutation_NoDup with (l := k :: Dict.keys d).
  - apply Permutation_cons_append.
  - now constructor.
Qed.

Lemma get_set_same d k v : Dict.get (Dict.set d k v) k = Some v.
Proof.
  induction d as [| [k' v'] d IH]; simpl.
  - now rewrite String.eqb_refl.
  - destruct (String.eqb k k') eqn:Heq; simpl; now rewrite Heq.
Qed.

Lemma get_set_other d k k' v :
  k <> k' -> Dict.get (Dict.set d k v) k' = Dict.get d k'.
Proof.
  intros Hne. induction d as [| [k0 v0] d IH]; simpl.
  - destruct (String.eqb k' k) eqn:Heq; [| reflexivity].
    apply String.eqb_eq in Heq. congruence.
  - destruct (String.eqb k k0) eqn:Heq; simpl.
    + apply String.eqb_eq in Heq. subst k0.
      destruct (String.eqb k' k) eqn:Heq'; [| reflexivity].
      apply String.eqb_eq in Heq'. congruence.
    + now rewrite IH.
Qed.

Lemma In_set d k v k' v' :
  In (k', v') (Dict.set d k v) -> (k' = k /\ v' = v) \/ In (k', v') d.
Proof.
  induction d as [| [k0 v0] d IH]; simpl.
  - intros [[= <- <-] | []]. now left.
  - destruct (String.eqb k k0) eqn:Heq; simpl.
    + apply String.eqb_eq in Heq. subst k0.
      intros [[= <- <-] | H]; [now left | right; now right].
    + intros [H | H]; [right; now left |].
      destruct (IH H) as [? | ?]; [now left | right; now right].
Qed.

Lemma has_get d k : Dict.has d k = true <-> exists v, Dict.get d k = Some v.
Proof.
  unfold Dict.has. rewrite mem_In.
  induction d as [| [k' v'] d IH]; simpl.
  - split; [tauto | intros [v H]; discriminate].
  - destruct (String.eqb k k') eqn:Heq.
    + apply String.eqb_eq in Heq. subst. split; [now exists v' | now left].
    + rewrite <- IH. split; [| tauto].
      intros [H | H]; [| assumption]. subst.
      now rewrite String.eqb_refl in Heq.
Qed.

Lemma has_In_keys d k : Dict.has d k = true <-> In k (Dict.keys d).
Proof. apply mem_In. Qed.

Lemma item_of_key d k : In k (Dict.keys d) -> exists v, Dict.item d k = Ok v.
Proof.
  intros H. apply has_In_keys, has_get in H. destruct H as [v Hv].
  exists v. unfold Dict.item. now rewrite Hv.
Qed.

Lemma item_get d k v : Dict.item d k = Ok v <-> Dict.get d k = Some v.
Proof.
  unfold Dict.item. destruct (Dict.get d k); split; congruence.
Qed.

End DictFacts.
End DictFacts.

(** ** The result monad *)

Lemma bind_Ok {A B : Type} (m : result A) (f : A -> result B) (b : B) :
  bind m f = Ok b <-> exists a, m = Ok a /\ f a = Ok b.
Proof.
  destruct m as [a | e]; simpl.
  - split; [intros H; now exists a | intros [a' [[= ->] H]]; exact H].
  - split; [discriminate | intros [a' [H _]]; discriminate].
Qed.

Lemma mapM_Ok {A B : Type} (f : A -> result B) (l : list A) (out : list B) :
  mapM f l = Ok out <-> Forall2 (fun x y => f x = Ok y) l out.
Proof.
  revert out. induction l as [| x xs IH]; intros out; simpl.
  - split; [intros [= <-]; constructor | intros H; now inversion H].
  - rewrite bind_Ok. split.
    + intros [y [Hy H]]. apply bind_Ok in H. destruct H as [ys [Hys [= <-]]].
      constructor; [assumption | now apply IH].
    + intros H. inversion H as [| ? y ? ys Hy Hys]; subst.
      exists y. split; [assumption |]. apply IH in Hys. now rewrite Hys.
Qed.

(** ** Induction on property trees *)

Lemma value_ind (P : value -> Prop)
  (Hscalar : forall s, P (VScalar s))
  (Hnone : P VNone)
  (Hdict : forall d, Forall (fun kv => P (snd kv)) d -> P (VDict d))
  (Hlist : forall l, Forall P l -> P (VList l)) :
  forall v, P v.
Proof.
  fix IH 1. intros [s | | d | l].
  - apply Hscalar.
  - apply Hnone.
  - apply Hdict. induction d as [| [k v] d IHd]; constructor.
    + apply IH.
    + exact IHd.
  - apply Hlist. induction l as [| x l IHl]; constructor.
    + apply IH.
    + exact IHl.
Qed.

(** ** The method and its loop bodies *)

Module PruneFacts.
Section PruneFacts.
Context {E : Externals}.
Import IndicatorFilter View Invariants.
Implicit Types (sp : spec) (parent : option string) (sv : scalar).

Lemma object_paths_loop_hit sp paths name sv sk acc :
  object_paths_loop sp paths name sv sk acc
  = (hit <- object_paths_hit sp paths sv sk ;;
     Ok (if hit then Dict.set acc name (VScalar sv) else acc)).
Proof.
  revert sk acc. induction paths as [| p paths IH]; intros sk acc.
  - reflexivity.
  - cbn [object_paths_loop object_paths_hit].
    destruct sk as [| root sk']; [reflexivity |].
    destruct (String.eqb root _); [| apply IH].
    match goal with
    | |- context [forallb ?f ?l] => destruct (forallb f l)
    end; [| apply IH].
    destruct (Dict.item sp p) as [wl | e]; [| reflexivity].
    cbn [bind]. rewrite IH.
    destruct (object_paths_hit sp paths sv _) as [hit | e]; [| reflexivity].
    cbn [bind].
    destruct (_whitelist_test sv wl), hit; cbn [orb];
      now rewrite ?DictFacts.set_idem.
Qed.

Lemma prune_scalar_kept sp parent name sv acc :
  prune_scalar sp parent name sv acc
  = (kept <- scalar_kept sp parent name sv ;;
     Ok (store acc name (if kept then Some (VScalar sv) else None))).
Proof.
  unfold prune_scalar, scalar_kept.
  destruct (negb (PyStr.truthy_opt parent) && Dict.has sp name).
  - destruct (Dict.item sp name) as [wl | e]; [| reflexivity].
    cbn [bind]. now destruct (_whitelist_test sv wl).
  - destruct parent as [p |]; [| reflexivity].
    destruct (PyStr.truthy p); [| reflexivity].
    rewrite object_paths_loop_hit.
    destruct (object_paths_hit _ _ _ _) as [[|] | e]; reflexivity.
Qed.

Lemma prune_dict_eq sp parent items :
  _prune_object_properties sp parent (VDict items)
  = prune_items sp parent items [].
Proof.
  cbn [_prune_object_properties].
  generalize (@nil (string * value)) as acc.
  induction items as [| [k pv] items IH]; intros acc; [reflexivity |].
  cbn [prune_items]. destruct pv as [sv | | d | l].
  - rewrite prune_scalar_kept. cbn [entry_outcome].
    destruct (scalar_kept sp parent k sv) as [kept | e]; [| reflexivity].
    cbn [bind]. apply IH.
  - cbn [entry_outcome bind]. apply IH.
  - cbn [entry_outcome].
    destruct (_prune_object_properties sp _ (VDict d)) as [nested | e];
      [| reflexivity].
    cbn [bind]. rewrite IH. unfold keep_dict, store.
    now destruct (Dict.nonempty nested).
  - cbn [entry_outcome].
    match goal with
    | |- bind (?each l) _ = _ =>
        assert (Heach : forall l', each l'
                  = mapM (_prune_object_properties sp
                            (Some (updated_key parent k))) l')
    end.
    { induction l' as [| x l' IHl]; [reflexivity |].
      cbn [mapM]. rewrite <- IHl. reflexivity. }
    rewrite Heach.
    destruct (mapM _ l) as [pl | e]; [| reflexivity].
    cbn [bind]. rewrite IH. unfold keep_list, store.
    now destruct (negb (Nat.eqb (List.length pl) 0) && no_empty_dict pl).
Qed.

(** A key that the dictionary being walked does not have keeps what
    [pruned_dict] had for it. *)
Lemma prune_items_frame sp parent items acc r k :
  prune_items sp parent items acc = Ok r ->
  ~ In k (Dict.keys items) ->
  Dict.get r k = Dict.get acc k.
Proof.
  revert acc. induction items as [| [k0 v0] items IH]; intros acc.
  - intros [= <-] _. reflexivity.
  - cbn [prune_items]. intros H Hk. apply bind_Ok in H.
    destruct H as [o [Ho H]]. simpl in Hk.
    rewrite (IH _ H) by tauto.
    destruct o as [v' |]; [| reflexivity].
    cbn [store]. apply DictFacts.get_set_other. tauto.
Qed.

(** In a dictionary, what the result has under a key is what the loop
    body stored for that key. *)
Lemma prune_items_get sp parent items acc r k v :
  prune_items sp parent items acc = Ok r ->
  NoDup (Dict.keys items) ->
  In (k, v) items ->
  ~ In k (Dict.keys acc) ->
  entry_outcome sp parent k v = Ok (Dict.get r k).
Proof.
  revert acc. induction items as [| [k0 v0] items IH]; intros acc;
    [intros _ _ [] |].
  cbn [prune_items]. intros H Hnd Hin Hacc. apply bind_Ok in H.
  destruct H as [o [Ho H]]. simpl in Hnd. inversion Hnd as [| ? ? Hk0 Hnd']; subst.
  destruct Hin as [[= -> ->] | Hin].
  - rewrite (prune_items_frame _ _ _ _ _ _ H Hk0). rewrite Ho. f_equal.
    destruct o as [v' |]; cbn [store].
    + symmetry. apply DictFacts.get_set_same.
    + destruct (Dict.get acc k) as [v' |] eqn:Hget; [| reflexivity].
      exfalso. apply Hacc. apply DictFacts.has_In_keys, DictFacts.has_get.
      now exists v'.
  - assert (Hne : k0 <> k).
    { intros ->. apply Hk0. change k with (fst (k, v)). now apply in_map. }
    apply (IH _ H Hnd' Hin).
    destruct o as [v' |]; cbn [store]; [| assumption].
    rewrite DictFacts.keys_set.
    destruct (PyStr.mem k0 (Dict.keys acc)); [assumption |].
    rewrite in_app_iff. simpl. tauto.
Qed.

(** Every entry of the result was in [pruned_dict] or was stored by the
    loop body for an entry of the dictionary being walked. *)
Lemma prune_items_provenance sp parent items acc r k v' :
  prune_items sp parent items acc = Ok r ->
  In (k, v') r ->
  In (k, v') acc
  \/ exists v, In (k, v) items /\ entry_outcome sp parent k v = Ok (Some v').
Proof.
  revert acc. induction items as [| [k0 v0] items IH]; intros acc.
  - intros [= <-] H. now left.
  - cbn [prune_items]. intros H Hin. apply bind_Ok in H.
    destruct H as [o [Ho H]].
    destruct (IH _ H Hin) as [Hacc | [v [Hv Hout]]].
    + destruct o as [v1 |]; cbn [store] in Hacc; [| now left].
      apply DictFacts.In_set in Hacc. destruct Hacc as [[-> ->] | Hacc];
        [| now left].
      right. exists v0. split; [now left | assumption].
    + right. exists v. split; [now right | assumption].
Qed.

(** *** Pruned dictionaries are fixed points of the loop *)

Lemma prune_items_fixed_run sp parent suffix pre :
  Dict.wf (pre ++ suffix)%list ->
  (forall k v, In (k, v) suffix ->
               entry_outcome sp parent k v = Ok (Some v)) ->
  prune_items sp parent suffix pre = Ok (pre ++ suffix)%list.
Proof.
  revert pre. induction suffix as [| [k v] suffix IH]; intros pre Hwf Hfix.
  - now rewrite app_nil_r.
  - cbn [prune_items]. rewrite (Hfix k v) by now left. cbn [bind store].
    assert (Hfresh : ~ In k (Dict.keys pre)).
    { unfold Dict.wf, Dict.keys in Hwf. rewrite map_app in Hwf. simpl in Hwf.
      apply NoDup_remove_2 in Hwf. rewrite in_app_iff in Hwf. tauto. }
    rewrite (DictFacts.set_fresh _ _ _ Hfresh).
    replace (pre ++ (k, v) :: suffix)%list
      with ((pre ++ [(k, v)]) ++ suffix)%list
      by now rewrite <- app_assoc.
    apply IH.
    + now rewrite <- app_assoc.
    + intros k' v' Hin. apply Hfix. now right.
Qed.

Lemma prune_items_keeps_fixed sp parent items acc r :
  (forall k v v', In (k, v) items ->
     entry_outcome sp parent k v = Ok (Some v') ->
     entry_outcome sp parent k v' = Ok (Some v')) ->
  prune_items sp parent items acc = Ok r ->
  fixed sp parent acc -> fixed sp parent r.
Proof.
  revert acc. induction items as [| [k0 v0] items IH]; intros acc Hstep.
  - now intros [= <-].
  - cbn [prune_items]. intros H Hacc. apply bind_Ok in H.
    destruct H as [o [Ho H]].
    apply (IH _ (fun k v v' Hin => Hstep k v v' (or_intror Hin)) H).
    destruct o as [v' |]; cbn [store]; [| assumption].
    destruct Hacc as [Hwf Hfix]. split; [now apply DictFacts.set_wf |].
    intros k v Hin. apply DictFacts.In_set in Hin.
    destruct Hin as [[-> ->] | Hin]; [| now apply Hfix].
    apply (Hstep k0 v0 v'); [now left | assumption].
Qed.

Lemma entry_outcome_idempotent sp parent k v v' :
  match v with
  | VDict _ => idempotent_at v
  | VList l => Forall idempotent_at l
  | _ => True
  end ->
  entry_outcome sp parent k v = Ok (Some v') ->
  entry_outcome sp parent k v' = Ok (Some v').
Proof.
  destruct v as [sv | | d | l]; cbn [entry_outcome]; intros IH H.
  - apply bind_Ok in H. destruct H as [[|] [Hk [= <-]]].
    cbn [entry_outcome]. now rewrite Hk.
  - discriminate.
  - apply bind_Ok in H. destruct H as [nested [Hn H]].
    destruct (Dict.nonempty nested) eqn:Hne; [| discriminate].
    injection H as <-. cbn [entry_outcome].
    rewrite (IH _ _ _ Hn). cbn [bind]. now rewrite Hne.
  - apply bind_Ok in H. destruct H as [pl [Hpl H]].
    destruct (negb (Nat.eqb (List.length pl) 0) && no_empty_dict pl) eqn:Hc;
      [| discriminate].
    injection H as <-. cbn [entry_outcome].
    assert (Hagain : mapM (_prune_object_properties sp
                             (Some (updated_key parent k)))
                          (map VDict pl) = Ok pl).
    { clear Hc. apply mapM_Ok in Hpl. apply mapM_Ok.
      induction Hpl as [| x y l pl' Hxy Hrest IHl]; [constructor |].
      inversion IH as [| ? ? Hx Hl]; subst. simpl.
      constructor; [now apply Hx | now apply IHl]. }
    rewrite Hagain. cbn [bind]. now rewrite Hc.
Qed.

Lemma prune_idempotent_deep (v : value) :
  idempotent_at v /\ (forall l, v = VList l -> Forall idempotent_at l).
Proof.
  induction v as [sv | | d IHd | l IHl] using value_ind.
  - split; [intros sp parent r H; discriminate | intros l [=]].
  - split; [intros sp parent r H; discriminate | intros l [=]].
  - split; [| intros l [=]].
    intros sp parent r H. rewrite prune_dict_eq in *.
    assert (Hfixed : fixed sp parent r).
    { apply (prune_items_keeps_fixed sp parent d [] r); [| assumption |].
      - intros k v v' Hin. apply entry_outcome_idempotent.
        rewrite Forall_forall in IHd. specialize (IHd _ Hin). simpl in IHd.
        destruct IHd as [Hv Hl].
        destruct v; try exact I; [exact Hv | now apply Hl].
      - split; [constructor | intros k v []]. }
    destruct Hfixed as [Hwf Hfix].
    now apply (prune_items_fixed_run sp parent r []).
  - split; [intros sp parent r H; discriminate |].
    intros l' [= <-]. apply Forall_impl with (2 := IHl). now intros x [Hx _].
Qed.

Lemma prune_idempotent_at (v : value) : idempotent_at v.
Proof. apply prune_idempotent_deep. Qed.

Lemma no_empty_dict_iff (pruned_list : list (dict value)) :
  no_empty_dict pruned_list = true <-> ~ In [] pruned_list.
Proof.
  unfold no_empty_dict. rewrite forallb_forall. split.
  - intros H Hin. specialize (H _ Hin). discriminate.
  - intros H d Hd. destruct d; [tauto | reflexivity].
Qed.

End PruneFacts.
End PruneFacts.

(** ** Contraindicators *)

Module ContraindicatorFacts.
Section ContraindicatorFacts.
Context {E : Externals}.
Import IndicatorFilter SpecWords.

Lemma contraindicators_loop_existsb cs name b :
  contraindicators_loop cs name b
  = existsb (fun c => PyStr.contains c name) cs || b.
Proof.
  induction cs as [| c cs IH]; simpl; [reflexivity |].
  now destruct (PyStr.contains c name).
Qed.

Lemma modifiers_loop_existsb ms name assoc b :
  modifiers_loop ms name assoc b
  = existsb (fun m => PyStr.contains m name) ms && String.eqb assoc "input"
    || b.
Proof.
  induction ms as [| m ms IH]; simpl; [reflexivity |].
  rewrite IH.
  destruct (PyStr.contains m name), (String.eqb assoc "input"); simpl;
    try reflexivity.
  now rewrite andb_false_r.
Qed.

Lemma action_context_loop_existsb config ctx b :
  action_context_loop config ctx b
  = b || existsb (pair_contraindicates config) ctx.
Proof.
  revert b. induction ctx as [| [name assoc] ctx IH]; intros b.
  - simpl. now rewrite orb_false_r.
  - cbn [action_context_loop existsb]. destruct b; [reflexivity |].
    rewrite IH. cbn [orb]. f_equal.
    unfold pair_contraindicates.
    destruct name as [name |], assoc as [assoc |]; try reflexivity.
    destruct (PyStr.truthy name && PyStr.truthy assoc); [| reflexivity].
    rewrite modifiers_loop_existsb, contraindicators_loop_existsb.
    rewrite orb_false_r. cbn [andb]. apply orb_comm.
Qed.

Lemma truthy_nonempty (s : string) : PyStr.truthy s = true <-> s <> "".
Proof. destruct s; simpl; split; congruence. Qed.

Lemma pair_contraindicates_true config pair :
  pair_contraindicates config pair = true <->
  exists name assoc,
    pair = (Some name, Some assoc) /\ name <> "" /\ assoc <> ""
    /\ ((exists c, In c (contraindicators config)
                   /\ PyStr.contains c name = true)
        \/ (exists m, In m (modifiers config)
                      /\ PyStr.contains m name = true)
           /\ assoc = "input").
Proof.
  unfold pair_contraindicates. destruct pair as [[name |] [assoc |]].
  2-4: split; [discriminate | intros (n & a & [=] & _)].
  rewrite !andb_true_iff, orb_true_iff, andb_true_iff, !existsb_exists,
    !truthy_nonempty, String.eqb_eq.
  split.
  - intros [[Hn Ha] H]. exists name, assoc. tauto.
  - intros (n & a & [= <- <-] & Hn & Ha & H). tauto.
Qed.

End ContraindicatorFacts.
End ContraindicatorFacts.

(** ** What holds of every run, and when the method returns *)

Module ShapeFacts.
Section ShapeFacts.
Context {E : Externals}.
Import IndicatorFilter View SpecWords Invariants.
Implicit Types (sp : spec) (parent : option string) (sv : scalar).

Lemma prune_items_entries_ok sp parent items acc r :
  prune_items sp parent items acc = Ok r ->
  forall k v, In (k, v) items ->
              exists o, entry_outcome sp parent k v = Ok o.
Proof.
  revert acc. induction items as [| [k0 v0] items IH]; intros acc H k v;
    [intros [] |].
  cbn [prune_items] in H. apply bind_Ok in H. destruct H as [o [Ho H]].
  intros [[= -> ->] | Hin]; [now exists o | now apply (IH _ H)].
Qed.

Lemma prune_items_total sp parent items acc :
  (forall k v, In (k, v) items ->
               exists o, entry_outcome sp parent k v = Ok o) ->
  exists r, prune_items sp parent items acc = Ok r.
Proof.
  revert acc. induction items as [| [k0 v0] items IH]; intros acc Hall.
  - now exists acc.
  - cbn [prune_items]. destruct (Hall k0 v0) as [o Ho]; [now left |].
    rewrite Ho. cbn [bind]. apply IH. intros k v Hin. apply Hall. now right.
Qed.

Lemma prune_Ok_is_dict sp parent v r :
  _prune_object_properties sp parent v = Ok r -> exists d, v = VDict d.
Proof. destruct v; try discriminate. intros _. now eexists. Qed.

(** *** The order of [iteritems()] does not matter *)

(** X10. Enumerating the dictionary in another order gives a result with
    the same value, or none, under every key. *)
Lemma prune_order_irrelevant sp parent (items items' : dict value)
  (r : dict value) :
  Dict.wf items ->
  Permutation items items' ->
  _prune_object_properties sp parent (VDict items) = Ok r ->
  exists r',
    _prune_object_properties sp parent (VDict items') = Ok r'
    /\ forall k, Dict.get r' k = Dict.get r k.
Proof.
  intros Hwf Hperm Hr. rewrite !PruneFacts.prune_dict_eq in *.
  assert (Hwf' : Dict.wf items').
  { unfold Dict.wf, Dict.keys. apply Permutation_NoDup with (2 := Hwf).
    now apply Permutation_map. }
  destruct (prune_items_total sp parent items' []) as [r' Hr'].
  { intros k v Hin. apply (prune_items_entries_ok _ _ _ _ _ Hr).
    now apply Permutation_in with (1 := Permutation_sym Hperm). }
  exists r'. split; [assumption |]. intros k.
  destruct (in_dec string_dec k (Dict.keys items)) as [Hk | Hk].
  - apply in_map_iff in Hk. destruct Hk as [[k0 v] [Heq Hin]].
    simpl in Heq. subst k0.
    pose proof (PruneFacts.prune_items_get _ _ _ _ _ _ _ Hr Hwf Hin
                  (fun H => H)) as Hout.
    pose proof (PruneFacts.prune_items_get _ _ _ _ _ _ _ Hr' Hwf'
                  (Permutation_in _ Hperm Hin) (fun H => H)) as Hout'.
    congruence.
  - rewrite (PruneFacts.prune_items_frame _ _ _ _ _ _ Hr Hk).
    apply (PruneFacts.prune_items_frame _ _ _ _ _ _ Hr').
    intros Hk'. apply Hk. unfold Dict.keys in *.
    now apply Permutation_in
      with (1 := Permutation_sym (Permutation_map fst Hperm)).
Qed.

(** *** Nothing is invented *)

Lemma entry_outcome_within sp parent k v v' :
  match v with
  | VDict _ => within_at v
  | VList l => Forall within_at l
  | _ => True
  end ->
  entry_outcome sp parent k v = Ok (Some v') -> within v' v.
Proof.
  destruct v as [sv | | d | l]; cbn [entry_outcome]; intros IH H.
  - apply bind_Ok in H. destruct H as [[|] [_ [= <-]]]. constructor.
  - discriminate.
  - apply bind_Ok in H. destruct H as [nested [Hn H]].
    destruct (Dict.nonempty nested); [| discriminate].
    injection H as <-. exact (IH _ _ _ Hn).
  - apply bind_Ok in H. destruct H as [pl [Hpl H]].
    destruct (negb (Nat.eqb (List.length pl) 0) && no_empty_dict pl);
      [| discriminate].
    injection H as <-. constructor. apply mapM_Ok in Hpl.
    induction Hpl as [| x y l pl' Hxy Hrest IHl]; [constructor |].
    inversion IH as [| ? ? Hx Hl]; subst. simpl.
    constructor; [exact (Hx _ _ _ Hxy) | now apply IHl].
Qed.

Lemma prune_within_deep (v : value) :
  within_at v /\ (forall l, v = VList l -> Forall within_at l).
Proof.
  induction v as [sv | | d IHd | l IHl] using value_ind.
  - split; [intros sp parent r H; discriminate | intros l [=]].
  - split; [intros sp parent r H; discriminate | intros l [=]].
  - split; [| intros l [=]].
    intros sp parent r H. rewrite PruneFacts.prune_dict_eq in H.
    constructor. apply Forall_forall. intros [k v'] Hin. cbn [fst snd].
    destruct (PruneFacts.prune_items_provenance _ _ _ _ _ _ _ H Hin)
      as [[] | [v [Hv Hout]]].
    exists v. split; [assumption |].
    apply (entry_outcome_within sp parent k); [| assumption].
    rewrite Forall_forall in IHd. specialize (IHd _ Hv). simpl in IHd.
    destruct IHd as [Hat Hl].
    destruct v; try exact I; [exact Hat | now apply Hl].
  - split; [intros sp parent r H; discriminate |].
    intros l' [= <-]. apply Forall_impl with (2 := IHl). now intros x [Hx _].
Qed.

(** X5. Every key of the pruned tree, at every depth, is a key of the
    input at the same position, with the same scalar under it. *)
Lemma prune_invents_nothing sp parent v r :
  _prune_object_properties sp parent v = Ok r -> within (VDict r) v.
Proof. apply prune_within_deep. Qed.

(** *** A list element that is not a mapping raises *)

Lemma prune_shaped_deep (v : value) :
  shaped_at v /\ (forall l, v = VList l -> Forall shaped_at l).
Proof.
  induction v as [sv | | d IHd | l IHl] using value_ind.
  - split; [intros sp parent r H; discriminate | intros l [=]].
  - split; [intros sp parent r H; discriminate | intros l [=]].
  - split; [| intros l [=]].
    intros sp parent r H. rewrite PruneFacts.prune_dict_eq in H.
    constructor. apply Forall_forall. intros [k v] Hin. cbn [snd].
    destruct (prune_items_entries_ok _ _ _ _ _ H k v Hin) as [o Ho].
    rewrite Forall_forall in IHd. specialize (IHd _ Hin). simpl in IHd.
    destruct IHd as [Hat Hl].
    destruct v as [sv | | d' | l]; cbn [entry_outcome] in Ho.
    + constructor.
    + constructor.
    + apply bind_Ok in Ho. destruct Ho as [nested [Hn _]].
      exact (Hat _ _ _ Hn).
    + apply bind_Ok in Ho. destruct Ho as [pl [Hpl _]].
      specialize (Hl l eq_refl). constructor. apply mapM_Ok in Hpl.
      clear -Hpl Hl.
      induction Hpl as [| x y l' pl' Hxy Hrest IHl']; [constructor |].
      inversion Hl as [| ? ? Hx Hl']; subst.
      constructor; [| now apply IHl'].
      split; [exact (prune_Ok_is_dict _ _ _ _ Hxy) | exact (Hx _ _ _ Hxy)].
  - split; [intros sp parent r H; discriminate |].
    intros l' [= <-]. apply Forall_impl with (2 := IHl). now intros x [Hx _].
Qed.

(** The method returns only on trees whose lists hold mappings. *)
Lemma prune_Ok_lists_of_mappings sp parent v r :
  _prune_object_properties sp parent v = Ok r -> lists_of_mappings v.
Proof. apply prune_shaped_deep. Qed.

(** *** When no configured path is rooted at ["value"] *)

Lemma removelast_nil_inv (x : string) (l : list string) :
  removelast (x :: l) = [] -> l = [].
Proof. destruct l; [reflexivity | simpl; discriminate]. Qed.

Lemma object_paths_hit_total sp paths sv sk :
  sk <> [] ->
  (forall p, In p paths ->
             In p (Dict.keys sp) /\ hd "" (PyStr.split slash p) <> "value") ->
  exists hit, object_paths_hit sp paths sv sk = Ok hit.
Proof.
  revert sk. induction paths as [| p paths IH]; intros sk Hsk Hpaths.
  - now exists false.
  - cbn [object_paths_hit]. destruct sk as [| root sk']; [congruence |].
    assert (Hrest : forall q, In q paths ->
              In q (Dict.keys sp) /\ hd "" (PyStr.split slash q) <> "value")
      by (intros q Hq; apply Hpaths; now right).
    destruct (Hpaths p (or_introl eq_refl)) as [Hkey Hroot].
    destruct (String.eqb root (hd "" (PyStr.split slash p))) eqn:Heq;
      [| now apply IH].
    apply String.eqb_eq in Heq.
    set (sk2 := if String.eqb (last_item (root :: sk')) "value"
                then removelast (root :: sk') else root :: sk').
    assert (Hsk2 : sk2 <> []).
    { unfold sk2.
      destruct (String.eqb (last_item (root :: sk')) "value") eqn:Hlast;
        [| discriminate].
      intros Hnil. apply removelast_nil_inv in Hnil. subst sk'.
      apply String.eqb_eq in Hlast. unfold last_item in Hlast.
      simpl in Hlast. congruence. }
    destruct (forallb _ (tl sk2)); [| now apply IH].
    destruct (DictFacts.item_of_key sp p Hkey) as [wl Hwl]. rewrite Hwl.
    cbn [bind]. destruct (IH sk2 Hsk2 Hrest) as [hit Hhit]. rewrite Hhit.
    cbn [bind]. now eexists.
Qed.

Lemma scalar_kept_total sp parent name sv :
  no_value_root sp -> exists kept, scalar_kept sp parent name sv = Ok kept.
Proof.
  intros Hsp. unfold scalar_kept.
  destruct (negb (PyStr.truthy_opt parent) && Dict.has sp name) eqn:Htop.
  - apply andb_true_iff in Htop. destruct Htop as [_ Hhas].
    apply DictFacts.has_In_keys in Hhas.
    destruct (DictFacts.item_of_key sp name Hhas) as [wl ->].
    cbn [bind]. now eexists.
  - destruct parent as [p |]; [| now eexists].
    destruct (PyStr.truthy p); [| now eexists].
    apply object_paths_hit_total.
    + destruct (PyStr.split slash p); discriminate.
    + intros q Hq. split; [assumption | now apply Hsp].
Qed.

Lemma prune_total_deep (v : value) : total_at v.
Proof.
  induction v as [sv | | d IHd | l IHl] using value_ind;
    intros Hshape sp parent Hsp; try exact I.
  - rewrite PruneFacts.prune_dict_eq. apply prune_items_total.
    intros k v Hin. inversion Hshape as [| | ? Hd |]; subst.
    rewrite Forall_forall in IHd, Hd.
    specialize (IHd _ Hin). specialize (Hd _ Hin). simpl in IHd, Hd.
    destruct v as [sv | | d' | l]; cbn [entry_outcome].
    + destruct (scalar_kept_total sp parent k sv Hsp) as [kept ->].
      cbn [bind]. now eexists.
    + now eexists.
    + destruct (IHd Hd sp (Some (updated_key parent k)) Hsp) as [r ->].
      cbn [bind]. now eexists.
    + destruct (IHd Hd sp (Some (updated_key parent k)) Hsp) as [pl ->].
      cbn [bind]. now eexists.
  - inversion Hshape as [| | | ? Hl]; subst.
    induction l as [| x l IHlist]; [now exists [] |].
    inversion IHl as [| ? ? Hx IHl']; subst.
    inversion Hl as [| ? ? [[dx ->] Hxs] Hl']; subst.
    cbn [mapM]. destruct (Hx Hxs sp parent Hsp) as [r ->]. cbn [bind].
    destruct (IHlist IHl' (lom_list _ Hl') Hl') as [pl ->]. cbn [bind].
    now eexists.
Qed.

(** On a dictionary whose lists hold mappings and whose scalars are
    those of [scalar], against a specification with no path rooted at
    ["value"], the method returns. *)
Lemma prune_returns sp parent d :
  lists_of_mappings (VDict d) -> no_value_root sp ->
  exists r, _prune_object_properties sp parent (VDict d) = Ok r.
Proof. intros Hshape Hsp. exact (prune_total_deep (VDict d) Hshape sp parent Hsp). Qed.

End ShapeFacts.
End ShapeFacts.

(** ** The path-matching rule where at most one ["value"] is dropped *)

Module PathFacts.
Section PathFacts.
Context {E : Externals}.
Import IndicatorFilter View SpecWords.
Implicit Types (sp : spec) (sv : scalar).

Lemma split_app (sep : ascii) (a b : string) :
  PyStr.split sep (a ++ String sep b)
  = (PyStr.split sep a ++ PyStr.split sep b)%list.
Proof.
  induction a as [| c a IH]; cbn [append PyStr.split].
  - now rewrite Ascii.eqb_refl.
  - destruct (Ascii.eqb c sep); rewrite IH; [reflexivity |].
    pose proof (split_nonempty sep a) as Hne.
    destruct (PyStr.split sep a); [congruence | reflexivity].
Qed.

Lemma object_paths_hit_settled sp paths sv sk :
  sk <> [] -> last_item sk <> "value" ->
  (forall p, In p paths -> In p (Dict.keys sp)) ->
  object_paths_hit sp paths sv sk
  = Ok (existsb (candidate_hit sp sv sk) paths).
Proof.
  intros Hsk Hlast. apply String.eqb_neq in Hlast.
  induction paths as [| p paths IH]; intros Hkeys; [reflexivity |].
  cbn [object_paths_hit existsb]. destruct sk as [| root sk']; [congruence |].
  rewrite Hlast. unfold candidate_hit at 1. cbn [hd].
  rewrite IH by (intros q Hq; apply Hkeys; now right).
  destruct (String.eqb root _); [| reflexivity].
  destruct (forallb _ (tl (root :: sk'))); [| reflexivity].
  destruct (DictFacts.item_of_key sp p (Hkeys p (or_introl eq_refl)))
    as [wl Hwl].
  rewrite Hwl. apply DictFacts.item_get in Hwl. rewrite Hwl. reflexivity.
Qed.

Lemma hd_removelast (x y : string) (l : list string) :
  hd "" (removelast (x :: y :: l)) = x.
Proof. reflexivity. Qed.

Lemma object_paths_hit_one_wrapper sp paths sv sk :
  2 <= List.length sk ->
  last_item (drop_value_wrapper sk) <> "value" ->
  (forall p, In p paths -> In p (Dict.keys sp)) ->
  object_paths_hit sp paths sv sk
  = Ok (existsb (candidate_hit sp sv (drop_value_wrapper sk)) paths).
Proof.
  intros Hlen. unfold drop_value_wrapper. fold (last_item sk).
  destruct (String.eqb (last_item sk) "value") eqn:Hwrapped;
    [| intros Hlast; apply object_paths_hit_settled; [| assumption];
       destruct sk; [simpl in Hlen; lia | discriminate]].
  destruct sk as [| root [| second sk']]; try (simpl in Hlen; lia).
  intros Hlast Hkeys. induction paths as [| p paths IH]; [reflexivity |].
  cbn [object_paths_hit existsb].
  unfold candidate_hit at 1. rewrite hd_removelast.
  destruct (String.eqb root _); cbn [andb orb];
    [| apply IH; intros q Hq; apply Hkeys; now right].
  rewrite Hwrapped.
  rewrite (object_paths_hit_settled sp paths sv
             (removelast (root :: second :: sk')));
    [| simpl; discriminate | assumption
     | intros q Hq; apply Hkeys; now right].
  destruct (forallb _ (tl (removelast (root :: second :: sk'))));
    [| reflexivity].
  destruct (DictFacts.item_of_key sp p (Hkeys p (or_introl eq_refl)))
    as [wl Hwl].
  rewrite Hwl. apply DictFacts.item_get in Hwl. rewrite Hwl. reflexivity.
Qed.

Lemma hd_drop_value_wrapper (x y : string) (l : list string) :
  hd "" (drop_value_wrapper (x :: y :: l)) = x.
Proof.
  unfold drop_value_wrapper.
  now destruct (String.eqb (last (x :: y :: l) "") "value").
Qed.

(** X3. On a nested scalar whose path loses at most one ["value"], the
    method and the rule of the specification agree. *)
Lemma nested_scalar_rule_one_wrapper sp (parent : string)
  (object_dict : dict value) (name : string) sv (pruned_dict : dict value) :
  PyStr.truthy parent = true ->
  Dict.wf object_dict ->
  In (name, VScalar sv) object_dict ->
  PyStr.split slash name = [name] ->
  last_item (drop_value_wrapper
               (PyStr.split slash (parent ++ "/" ++ name))) <> "value" ->
  _prune_object_properties sp (Some parent) (VDict object_dict)
  = Ok pruned_dict ->
  (Dict.has pruned_dict name = true <->
   nested_scalar_included sp (parent ++ "/" ++ name) sv = true).
Proof.
  intros Hparent Hwf Hin Hname Hlast Hprune.
  rewrite PruneFacts.prune_dict_eq in Hprune.
  pose proof (PruneFacts.prune_items_get _ _ _ _ _ _ _ Hprune Hwf Hin
                (fun H => H)) as Hout.
  cbn [entry_outcome] in Hout. apply bind_Ok in Hout.
  destruct Hout as [kept [Hkept Hget]]. injection Hget as Hget.
  unfold scalar_kept in Hkept. cbn [PyStr.truthy_opt] in Hkept.
  rewrite Hparent in Hkept. cbn [negb andb] in Hkept.
  change (parent ++ "/" ++ name) with (parent ++ String slash name) in *.
  rewrite split_app, Hname in Hlast.
  set (sk := (PyStr.split slash parent ++ [name])%list) in *.
  assert (Hlen : 2 <= List.length sk).
  { unfold sk. rewrite length_app. simpl.
    pose proof (split_nonempty slash parent).
    destruct (PyStr.split slash parent); [congruence | simpl; lia]. }
  rewrite (object_paths_hit_one_wrapper sp _ sv sk Hlen Hlast) in Hkept
    by tauto.
  injection Hkept as Hkept.
  rewrite DictFacts.has_get, <- Hget.
  unfold nested_scalar_included, candidate_matches.
  rewrite split_app, Hname. fold sk.
  assert (Hsame : existsb (candidate_hit sp sv (drop_value_wrapper sk))
                    (Dict.keys sp)
                  = existsb
                      (fun candidate =>
                         String.eqb (hd "" sk)
                           (hd "" (PyStr.split slash candidate))
                         && forallb
                              (fun segment =>
                                 PyStr.mem segment
                                   (tl (PyStr.split slash candidate)))
                              (tl (drop_value_wrapper sk))
                         && match Dict.get sp candidate with
                            | Some whitelist => _whitelist_test sv whitelist
                            | None => false
                            end)
                      (Dict.keys sp)).
  { assert (Hhd : hd "" (drop_value_wrapper sk) = hd "" sk).
    { destruct sk as [| x [| y l]]; try (simpl in Hlen; lia).
      apply hd_drop_value_wrapper. }
    unfold candidate_hit. now rewrite Hhd. }
  rewrite <- Hsame, Hkept.
  destruct kept; split; try reflexivity; try discriminate.
  - intros _. now eexists.
  - intros [v Hv]. discriminate.
Qed.

(** *** A retained scalar was accepted by a configured path *)

Lemma object_paths_hit_nil sp paths sv :
  object_paths_hit sp paths sv [] <> Ok true.
Proof. destruct paths; discriminate. Qed.

Lemma object_paths_hit_true sp paths sv sk :
  object_paths_hit sp paths sv sk = Ok true ->
  exists p whitelist,
    In p paths
    /\ hd "" sk = hd "" (PyStr.split slash p)
    /\ Dict.get sp p = Some whitelist
    /\ _whitelist_test sv whitelist = true.
Proof.
  revert sk. induction paths as [| p paths IH]; intros sk; [discriminate |].
  cbn [object_paths_hit]. destruct sk as [| root sk']; [discriminate |].
  assert (Hrest : forall sk2,
            hd "" sk2 = root ->
            object_paths_hit sp paths sv sk2 = Ok true ->
            exists q whitelist,
              In q (p :: paths)
              /\ hd "" (root :: sk') = hd "" (PyStr.split slash q)
              /\ Dict.get sp q = Some whitelist
              /\ _whitelist_test sv whitelist = true).
  { intros sk2 Hhd H. apply IH in H. destruct H as (q & wl & Hq & Hroot & H).
    exists q, wl. rewrite <- Hroot, Hhd. split; [now right | now split]. }
  destruct (String.eqb root _) eqn:Hroot; [| now apply Hrest].
  apply String.eqb_eq in Hroot.
  set (sk2 := if String.eqb (last_item (root :: sk')) "value"
              then removelast (root :: sk') else root :: sk').
  assert (Hsk2 : sk2 = [] \/ hd "" sk2 = root).
  { unfold sk2. destruct (String.eqb _ "value"); [| now right].
    destruct sk'; [now left | now right]. }
  assert (Hnext : object_paths_hit sp paths sv sk2 = Ok true ->
            exists q whitelist,
              In q (p :: paths)
              /\ hd "" (root :: sk') = hd "" (PyStr.split slash q)
              /\ Dict.get sp q = Some whitelist
              /\ _whitelist_test sv whitelist = true).
  { destruct Hsk2 as [-> | Hhd]; [| now apply Hrest].
    intros H. now apply object_paths_hit_nil in H. }
  destruct (forallb _ (tl sk2)); [| exact Hnext].
  destruct (Dict.item sp p) as [wl | e] eqn:Hitem; [| discriminate].
  cbn [bind].
  destruct (object_paths_hit sp paths sv sk2) as [hit | e]; [| discriminate].
  cbn [bind]. intros [= H]. apply orb_true_iff in H.
  destruct H as [Hwl | ->]; [| now apply Hnext].
  exists p, wl. apply DictFacts.item_get in Hitem.
  split; [now left | now repeat split].
Qed.

Lemma hd_split_updated_key (parent_key : option string) (name : string) :
  PyStr.truthy_opt parent_key = true ->
  exists parent,
    parent_key = Some parent
    /\ hd "" (PyStr.split slash (updated_key parent_key name))
       = hd "" (PyStr.split slash parent ++ [name])%list.
Proof.
  destruct parent_key as [parent |]; [| discriminate].
  cbn [PyStr.truthy_opt updated_key]. intros Htruthy. exists parent.
  rewrite Htruthy. split; [reflexivity |].
  change (parent ++ "/" ++ name) with (parent ++ String slash name).
  rewrite split_app. pose proof (split_nonempty slash parent).
  destruct (PyStr.split slash parent); [congruence | reflexivity].
Qed.

(** X4. Whatever is dropped from [split_key], a scalar that the method
    keeps was accepted by the patterns of a configured path with the root
    segment of its own path; at the top level the path is the key. *)
Lemma retained_scalar_accepted sp (parent_key : option string)
  (object_dict : dict value) (name : string) sv (pruned_dict : dict value) :
  Dict.wf object_dict ->
  In (name, VScalar sv) object_dict ->
  _prune_object_properties sp parent_key (VDict object_dict)
  = Ok pruned_dict ->
  Dict.has pruned_dict name = true ->
  exists object_path whitelist,
    In object_path (Dict.keys sp)
    /\ Dict.get sp object_path = Some whitelist
    /\ _whitelist_test sv whitelist = true
    /\ hd "" (PyStr.split slash object_path)
       = hd "" (PyStr.split slash (updated_key parent_key name))
    /\ (PyStr.truthy_opt parent_key = false -> object_path = name).
Proof.
  intros Hwf Hin Hprune Hhas.
  rewrite PruneFacts.prune_dict_eq in Hprune.
  pose proof (PruneFacts.prune_items_get _ _ _ _ _ _ _ Hprune Hwf Hin
                (fun H => H)) as Hout.
  cbn [entry_outcome] in Hout. apply bind_Ok in Hout.
  destruct Hout as [kept [Hkept Hget]]. injection Hget as Hget.
  apply DictFacts.has_get in Hhas. destruct Hhas as [v Hv].
  rewrite Hv in Hget. destruct kept; [clear Hget | discriminate].
  unfold scalar_kept in Hkept.
  destruct (PyStr.truthy_opt parent_key) eqn:Htruthy; cbn [negb andb] in Hkept.
  - destruct (hd_split_updated_key parent_key name Htruthy)
      as (parent & -> & Hhd).
    cbn [PyStr.truthy_opt] in Htruthy. rewrite Htruthy in Hkept.
    apply object_paths_hit_true in Hkept.
    destruct Hkept as (q & wl & Hq & Hroot & Hwl & Hacc).
    exists q, wl. rewrite Hhd, Hroot.
    repeat split; try assumption. discriminate.
  - destruct (Dict.has sp name) eqn:Hname.
    + apply bind_Ok in Hkept. destruct Hkept as [wl [Hitem [= Hacc]]].
      exists name, wl. apply DictFacts.item_get in Hitem.
      apply DictFacts.has_In_keys in Hname.
      assert (Hkey : updated_key parent_key name = name).
      { destruct parent_key as [parent |]; [| reflexivity].
        cbn [PyStr.truthy_opt] in Htruthy. cbn [updated_key].
        now rewrite Htruthy. }
      rewrite Hkey. now repeat split.
    + destruct parent_key as [parent |]; [| discriminate].
      cbn [PyStr.truthy_opt] in Htruthy. rewrite Htruthy in Hkept.
      discriminate.
Qed.

(** *** Three paths rooted at ["value"], in any order *)

Lemma object_paths_hit_value_rooted sp sv (p1 p2 p3 : string)
  (rest : list string) :
  (forall p, In p [p1; p2] ->
             In p (Dict.keys sp)
             /\ hd "" (PyStr.split slash p) = "value") ->
  object_paths_hit sp (p1 :: p2 :: p3 :: rest) sv ["value"; "value"]
  = Raise IndexError.
Proof.
  intros Hpaths.
  destruct (Hpaths p1) as [Hk1 Hr1]; [now left |].
  destruct (Hpaths p2) as [Hk2 Hr2]; [right; now left |].
  destruct (DictFacts.item_of_key sp p1 Hk1) as [wl1 Hwl1].
  destruct (DictFacts.item_of_key sp p2 Hk2) as [wl2 Hwl2].
  cbn [object_paths_hit]. rewrite Hr1. cbn. rewrite Hwl1. cbn [bind].
  rewrite Hr2. cbn. rewrite Hwl2. reflexivity.
Qed.

(** Whatever the order of its paths, a specification with at least three
    paths, all rooted at ["value"], makes the method raise on
    [Inputs.value_in_value]. *)
Lemma value_in_value_raises sp :
  3 <= List.length sp ->
  (forall p, In p (Dict.keys sp) ->
             hd "" (PyStr.split slash p) = "value") ->
  _prune_object_properties sp None Inputs.value_in_value = Raise IndexError.
Proof.
  intros Hlen Hroots.
  assert (Hhit : object_paths_hit sp (Dict.keys sp) (SStr "v")
                   ["value"; "value"] = Raise IndexError).
  { destruct sp as [| [p1 w1] [| [p2 w2] [| [p3 w3] rest]]];
      try (simpl in Hlen; lia).
    apply object_paths_hit_value_rooted. intros p Hp. split.
    - simpl in *. tauto.
    - apply Hroots. simpl in *. tauto. }
  unfold Inputs.value_in_value.
  rewrite PruneFacts.prune_dict_eq. cbn [prune_items entry_outcome].
  rewrite PruneFacts.prune_dict_eq. cbn [prune_items entry_outcome].
  unfold scalar_kept. cbn [PyStr.truthy_opt updated_key PyStr.truthy negb andb].
  change (PyStr.split slash "value" ++ ["value"])%list
    with ["value"; "value"].
  now rewrite Hhit.
Qed.

End PathFacts.
End PathFacts.

(** ** The loop of [prune_objects] *)

Module ObjectsFacts.
Section ObjectsFacts.
Context {E : Externals}.
Import IndicatorFilter View SpecWords.

Lemma prune_objects_loop_step config entry rest h final :
  prune_objects_loop config (entry :: rest) h final
  = match entry_step config (h entry) with
    | Raise e => (h, Raise e)
    | Ok None => prune_objects_loop config rest h final
    | Ok (Some pruned_object) =>
        prune_objects_loop config rest (set_object h entry pruned_object)
          (final ++ [entry])%list
    end.
Proof.
  cbn [prune_objects_loop]. unfold entry_step.
  destruct (Dict.get (supported_objects config) _) as [conf |];
    [| reflexivity].
  destruct (negb (_contraindicator_check config (h entry))); [| reflexivity].
  destruct (_required_property_check (object (h entry)) conf)
    as [[|] | e]; cbn [bind]; try reflexivity.
  destruct (_prune_object_properties (full_properties conf) None _);
    reflexivity.
Qed.

Lemma entry_step_skip config e :
  entry_step config e = Ok None -> accepts config e = false.
Proof.
  unfold entry_step, accepts.
  destruct (Dict.get (supported_objects config) _) as [conf |];
    [| reflexivity].
  destruct (negb (_contraindicator_check config e)); [| reflexivity].
  destruct (_required_property_check (object e) conf) as [[|] | err];
    cbn [bind]; try reflexivity; try discriminate.
  destruct (_prune_object_properties (full_properties conf) None _);
    discriminate.
Qed.

Lemma entry_step_replace config e pruned_object :
  entry_step config e = Ok (Some pruned_object) ->
  accepts config e = true /\ replaces config (object e) pruned_object.
Proof.
  unfold entry_step, accepts, replaces.
  destruct (Dict.get (supported_objects config) _) as [conf |];
    [| discriminate].
  destruct (negb (_contraindicator_check config e)); [| discriminate].
  destruct (_required_property_check (object e) conf) as [[|] | err];
    cbn [bind]; try discriminate.
  destruct (_prune_object_properties (full_properties conf) None _)
    as [fp | err] eqn:Hfp; cbn [bind]; [| discriminate].
  intros [= <-]. split; [reflexivity |]. now exists conf, fp.
Qed.

Lemma set_object_other h entry o l :
  l <> entry -> set_object h entry o l = h l.
Proof.
  intros Hne. unfold set_object.
  destruct (Nat.eqb l entry) eqn:Heq; [| reflexivity].
  apply Nat.eqb_eq in Heq. congruence.
Qed.

Lemma set_object_same h entry o :
  set_object h entry o entry
  = {| object := o; action_context := get_action_context entry o |}.
Proof. unfold set_object. now rewrite Nat.eqb_refl. Qed.

(** The entries appended are candidates that passed the three tests as
    they were in the store at the call, and the store changes only at the
    entries appended. *)
Lemma prune_objects_loop_frame config cands h final h' out :
  prune_objects_loop config cands h final = (h', Ok out) ->
  exists added,
    out = (final ++ added)%list
    /\ (forall l, In l added ->
                  In l cands /\ accepts config (h l) = true)
    /\ forall l, ~ In l added -> h' l = h l.
Proof.
  revert h final. induction cands as [| entry rest IH]; intros h final.
  - intros [= <- <-]. exists []. rewrite app_nil_r.
    split; [reflexivity | split; [intros l [] | reflexivity]].
  - rewrite prune_objects_loop_step.
    destruct (entry_step config (h entry)) as [[o |] | e] eqn:Hstep;
      [| | discriminate]; intros H; apply IH in H;
      destruct H as (added & -> & Hadded & Hframe).
    + apply entry_step_replace in Hstep. destruct Hstep as [Hacc _].
      exists (entry :: added). rewrite <- app_assoc. split; [reflexivity |].
      split.
      * intros l Hl. destruct (Nat.eq_dec l entry) as [-> | Hne].
        -- split; [now left | assumption].
        -- destruct Hl as [-> | Hl]; [congruence |].
           destruct (Hadded l Hl) as [Hin Hl_acc].
           rewrite set_object_other in Hl_acc by assumption.
           split; [now right | assumption].
      * intros l Hl. simpl in Hl. rewrite Hframe by tauto.
        apply set_object_other. intros ->. tauto.
    + exists added. split; [reflexivity |]. split; [| assumption].
      intros l Hl. destruct (Hadded l Hl). split; [now right | assumption].
Qed.

(** Whether the loop returns or raises, the store changes only at
    candidates that passed the three tests as they were at the call. *)
Lemma prune_objects_loop_changes config cands h final h' res :
  prune_objects_loop config cands h final = (h', res) ->
  forall l, h' l <> h l -> In l cands /\ accepts config (h l) = true.
Proof.
  revert h final. induction cands as [| entry rest IH]; intros h final.
  - intros [= <- <-] l Hl. congruence.
  - rewrite prune_objects_loop_step.
    destruct (entry_step config (h entry)) as [[o |] | e] eqn:Hstep;
      intros H l Hl.
    + apply entry_step_replace in Hstep. destruct Hstep as [Hacc _].
      destruct (Nat.eq_dec l entry) as [-> | Hne];
        [split; [now left | assumption] |].
      rewrite <- (set_object_other h entry o l Hne) in Hl.
      destruct (IH _ _ H l Hl) as [Hin Hl_acc].
      rewrite set_object_other in Hl_acc by assumption.
      split; [now right | assumption].
    + destruct (IH _ _ H l Hl). split; [now right | assumption].
    + injection H as <- <-. congruence.
Qed.

(** On pairwise distinct candidates every entry is tested as it was in
    the store at the call. *)
Lemma prune_objects_loop_filter config cands h final h' out :
  NoDup cands ->
  prune_objects_loop config cands h final = (h', Ok out) ->
  out = (final ++ filter (fun l => accepts config (h l)) cands)%list
  /\ forall l, In l cands -> accepts config (h l) = true ->
       replaces config (object (h l)) (object (h' l)).
Proof.
  revert h final. induction cands as [| entry rest IH]; intros h final Hnd.
  - intros [= <- <-]. simpl. rewrite app_nil_r. split; [reflexivity |].
    intros l [].
  - inversion Hnd as [| ? ? Hfresh Hnd']; subst.
    rewrite prune_objects_loop_step.
    destruct (entry_step config (h entry)) as [[o |] | e] eqn:Hstep;
      [| | discriminate]; intros H.
    + apply entry_step_replace in Hstep. destruct Hstep as [Hacc Hrep].
      pose proof (prune_objects_loop_frame _ _ _ _ _ _ H)
        as (added & _ & Hadded & Hframe).
      apply (IH _ _ Hnd') in H. destruct H as [-> Hobjs].
      assert (Hsame : forall l, In l rest ->
                        set_object h entry o l = h l).
      { intros l Hl. apply set_object_other. intros ->. tauto. }
      split.
      * cbn [filter]. rewrite Hacc, <- app_assoc. cbn [app]. do 2 f_equal.
        apply filter_ext_in. intros l Hl. now rewrite Hsame.
      * intros l [<- | Hl] Hl_acc.
        -- rewrite Hframe by (intros Hin; apply Hfresh; now apply Hadded).
           rewrite set_object_same. cbn [object]. assumption.
        -- rewrite <- (Hsame l Hl) in Hl_acc |- *. now apply Hobjs.
    + apply entry_step_skip in Hstep.
      apply (IH _ _ Hnd') in H. destruct H as [-> Hobjs].
      split; [cbn [filter]; now rewrite Hstep |].
      intros l [<- | Hl] Hl_acc; [congruence | now apply Hobjs].
Qed.

End ObjectsFacts.
End ObjectsFacts.

(** * The claims *)

Section Claims.
Context {E : Externals}.
Import IndicatorFilter View SpecWords Inputs ObjectsFacts.

(** C1. Code against claim on the path ["a/value/value"] with the paths
    ["a/x"] and ["a/y"] configured, in either order.  No configured path
    contains the segment ["value"] that remains after the wrapper is
    dropped once, so the rule includes nothing; the method keeps the
    property, because the second path with root ["a"] pops a second
    ["value"] from the shared [split_key] and is then compared with no
    segment at all. *)
Theorem nested_scalar_popped_twice :
  _prune_object_properties two_paths (Some "a/value")
    (VDict [("value", VScalar (SStr "v"))])
  = Ok [("value", VScalar (SStr "v"))]
  /\ nested_scalar_included two_paths "a/value/value" (SStr "v") = false
  /\ (forall supported_properties,
        Permutation two_paths supported_properties ->
        _prune_object_properties supported_properties None doubly_wrapped
        = Ok [("a", VDict [("value",
                            VDict [("value", VScalar (SStr "v"))])])]
        /\ nested_scalar_included supported_properties "a/value/value"
             (SStr "v") = false).
Proof.
  split; [reflexivity | split; [reflexivity |]].
  intros sp Hperm. apply Permutation_length_2_inv in Hperm.
  destruct Hperm as [-> | ->]; split; reflexivity.
Qed.

(** C2. [_required_property_check] returns true exactly when the number
    of leaves of the flattened tree pruned against the required
    specification equals the number of required paths and, when the
    mutually exclusive specification is non-empty, the tree pruned against
    it has exactly one top-level key.  A leaf count that differs from the
    number of required paths, in either direction, never gives true: any
    value returned is then false, and false is returned whenever the
    pruning against the mutually exclusive specification, if there is
    one, returns. *)
Theorem required_property_check_counts (object : Object)
  (schema : ObjectTypeSchema) :
  (_required_property_check object schema = Ok true <->
   (exists pruned_properties,
      _prune_object_properties (required schema) None
        (to_dict (properties object)) = Ok pruned_properties
      /\ List.length (flatten_dict pruned_properties)
         = Dict.len (required schema))
   /\ (mutually_exclusive schema <> [] ->
       exists mutually_exclusive_pruned,
         _prune_object_properties (mutually_exclusive schema) None
           (to_dict (properties object)) = Ok mutually_exclusive_pruned
         /\ Dict.len mutually_exclusive_pruned = 1))
  /\ (forall pruned_properties,
        _prune_object_properties (required schema) None
          (to_dict (properties object)) = Ok pruned_properties ->
        (List.length (flatten_dict pruned_properties)
           < Dict.len (required schema)
         \/ List.length (flatten_dict pruned_properties)
            > Dict.len (required schema)) ->
        (forall b, _required_property_check object schema = Ok b ->
                   b = false)
        /\ ((mutually_exclusive schema = []
             \/ exists mutually_exclusive_pruned,
                  _prune_object_properties (mutually_exclusive schema) None
                    (to_dict (properties object))
                  = Ok mutually_exclusive_pruned) ->
            _required_property_check object schema = Ok false)).
Proof.
  unfold _required_property_check.
  destruct (_prune_object_properties (required schema) None
              (to_dict (properties object))) as [pruned | e] eqn:Hreq;
    cbn [bind].
  2:{ split.
      - split; [discriminate | intros [[p [H _]] _]; discriminate].
      - intros p H; discriminate. }
  destruct (Nat.eqb (List.length (flatten_dict pruned))
                    (Dict.len (required schema))) eqn:Hcount; cbn [negb].
  - apply Nat.eqb_eq in Hcount. split.
    + destruct (mutually_exclusive schema) as [| me_entry me] eqn:Hme;
        cbn [Dict.nonempty].
      * split; [| reflexivity]. intros _. split; [now exists pruned | tauto].
      * destruct (_prune_object_properties (me_entry :: me) None
                    (to_dict (properties object))) as [mp | e] eqn:Hmp;
          cbn [bind].
        -- destruct (Nat.eqb (Dict.len mp) 1) eqn:Hone; cbn [negb].
           ++ apply Nat.eqb_eq in Hone. split; [| reflexivity]. intros _.
              split; [now exists pruned |]. intros _. now exists mp.
           ++ apply Nat.eqb_neq in Hone. split; [discriminate |].
              intros [_ H]. destruct H as [mp' [[= <-] Hlen]];
                [discriminate | congruence].
        -- split; [discriminate |]. intros [_ H].
           destruct H as [mp' [Hmp' _]]; discriminate.
    + intros p [= <-] Hlen. lia.
  - apply Nat.eqb_neq in Hcount. split.
    + split.
      * intros H. exfalso.
        destruct (Dict.nonempty (mutually_exclusive schema));
          [| discriminate].
        destruct (_prune_object_properties (mutually_exclusive schema) None
                    (to_dict (properties object))) as [mp | e];
          cbn [bind] in H; [| discriminate].
        destruct (negb (Nat.eqb (Dict.len mp) 1)); discriminate.
      * intros [[p [[= <-] Hlen]] _]. congruence.
    + intros p _ _. split.
      * intros b H.
        destruct (Dict.nonempty (mutually_exclusive schema));
          [| congruence].
        destruct (_prune_object_properties (mutually_exclusive schema) None
                    (to_dict (properties object))) as [mp | e];
          cbn [bind] in H; [| discriminate].
        destruct (negb (Nat.eqb (Dict.len mp) 1)); congruence.
      * intros Hme.
        destruct (mutually_exclusive schema) as [| me_entry me];
          [reflexivity |].
        destruct Hme as [Hnil | [mp Hmp]]; [discriminate |].
        cbn [Dict.nonempty]. rewrite Hmp. cbn [bind].
        now destruct (negb (Nat.eqb (Dict.len mp) 1)).
Qed.

(** C3. In a dictionary, a key whose value is a sequence is in the pruned
    result exactly when the list of the pruned elements is non-empty and
    none of them is the empty dictionary; it then holds that list.  In
    particular an element that prunes to the empty dictionary drops the
    whole sequence. *)
Theorem sequence_all_or_nothing (supported_properties : spec)
  (parent_key : option string) (object_dict : dict value)
  (property_name : string) (property_value : list value)
  (pruned_dict : dict value) :
  Dict.wf object_dict ->
  In (property_name, VList property_value) object_dict ->
  _prune_object_properties supported_properties parent_key
    (VDict object_dict) = Ok pruned_dict ->
  exists pruned_list,
    mapM (_prune_object_properties supported_properties
            (Some (updated_key parent_key property_name)))
         property_value = Ok pruned_list
    /\ (Dict.has pruned_dict property_name = true <->
        pruned_list <> [] /\ ~ In [] pruned_list)
    /\ (Dict.has pruned_dict property_name = true ->
        Dict.get pruned_dict property_name
        = Some (VList (map VDict pruned_list)))
    /\ (forall list_item,
          In list_item property_value ->
          _prune_object_properties supported_properties
            (Some (updated_key parent_key property_name)) list_item = Ok [] ->
          Dict.has pruned_dict property_name = false).
Proof.
  intros Hwf Hin Hprune. rewrite PruneFacts.prune_dict_eq in Hprune.
  pose proof (PruneFacts.prune_items_get _ _ _ _ _ _ _ Hprune Hwf Hin
                (fun H => H)) as Hout.
  cbn [entry_outcome] in Hout. apply bind_Ok in Hout.
  destruct Hout as [pruned_list [Hmap Hget]]. injection Hget as Hget.
  exists pruned_list. split; [assumption |].
  assert (Hiff : Dict.has pruned_dict property_name = true <->
                 pruned_list <> [] /\ ~ In [] pruned_list).
  { rewrite DictFacts.has_get, <- Hget, <- PruneFacts.no_empty_dict_iff.
    destruct pruned_list as [| d pl]; cbn [List.length Nat.eqb negb andb].
    - split; [intros [v Hv]; discriminate | intros [H _]; congruence].
    - destruct (no_empty_dict (d :: pl)).
      + split; [intros _; split; [discriminate | reflexivity] | intros _; eauto].
      + split; [intros [v Hv]; discriminate | intros [_ H]; discriminate]. }
  split; [exact Hiff | split].
  - intros Hhas. apply Hiff in Hhas. destruct Hhas as [Hne Hnone].
    rewrite <- Hget. apply PruneFacts.no_empty_dict_iff in Hnone. rewrite Hnone.
    destruct pruned_list; [congruence | reflexivity].
  - intros list_item Hitem Hempty.
    apply not_true_is_false. intros Hhas.
    apply Hiff in Hhas. destruct Hhas as [_ Hnone]. apply Hnone.
    apply mapM_Ok in Hmap. clear -Hmap Hitem Hempty.
    induction Hmap as [| x y l pl Hxy Hrest IH]; [destruct Hitem |].
    destruct Hitem as [-> | Hitem]; [left; congruence | right; now apply IH].
Qed.

(** C4, amended.  On pairwise distinct entries, when [prune_objects]
    returns, the returned list is the list of the candidates, in their
    order, whose type tag is a key of [supported_objects], that are not
    contraindicated and that pass the required-property check, each as it
    is in the store at the call; the Object of each of them is replaced
    by an Object whose properties are the ones that
    [ObjectProperties.from_dict] builds from the properties it had,
    pruned against [full_properties] (the paths of the required, optional
    and mutually exclusive specifications), with ["xsi:type"] set to the
    type tag it had.  The libraries are parameters: nothing is assumed
    of what [to_dict()] returns on the new properties, nor of the action
    context of an entry whose Object was replaced. *)
Theorem prune_objects_returns_accepted (config : Config) (h h' : heap)
  (candidate_indicator_objects final_indicator_objects : list loc) :
  NoDup candidate_indicator_objects ->
  prune_objects config h candidate_indicator_objects
  = (h', Ok final_indicator_objects) ->
  final_indicator_objects
  = filter (fun entry => accepts config (h entry))
      candidate_indicator_objects
  /\ forall entry,
       In entry final_indicator_objects ->
       exists object_type_conf full_pruned_properties,
         Dict.get (supported_objects config)
           (_XSI_TYPE (properties (object (h entry))))
         = Some object_type_conf
         /\ _prune_object_properties (full_properties object_type_conf) None
              (to_dict (properties (object (h entry))))
            = Ok full_pruned_properties
         /\ properties (object (h' entry))
            = from_dict
                (Dict.set full_pruned_properties "xsi:type"
                   (VScalar
                      (SStr (_XSI_TYPE (properties (object (h entry))))))).
Proof.
  unfold prune_objects. intros Hnd H.
  apply (prune_objects_loop_filter _ _ _ _ _ _ Hnd) in H.
  destruct H as [-> Hobjs]. cbn [app]. split; [reflexivity |].
  intros entry Hin. apply filter_In in Hin. destruct Hin as [Hin Hacc].
  destruct (Hobjs entry Hin Hacc) as (conf & fp & Hconf & Hfp & Hnew).
  exists conf, fp. rewrite Hnew. now repeat split.
Qed.

(** C5. [_contraindicator_check] is true exactly when some action-context
    pair, both of whose components are non-empty, has an action name that
    contains a configured contraindicator, or contains a configured
    modifier while the association type is ["input"].  The result is the
    same for any reordering of the pairs, and it is false for the empty
    action context. *)
Theorem contraindicator_check_is_disjunction (config : Config)
  (entry : ObjectHistoryEntry) :
  (_contraindicator_check config entry = true <->
   exists name assoc,
     In (Some name, Some assoc) (action_context entry)
     /\ name <> "" /\ assoc <> ""
     /\ ((exists c, In c (contraindicators config)
                    /\ PyStr.contains c name = true)
         \/ (exists m, In m (modifiers config)
                       /\ PyStr.contains m name = true)
            /\ assoc = "input"))
  /\ (forall entry',
        Permutation (action_context entry) (action_context entry') ->
        _contraindicator_check config entry'
        = _contraindicator_check config entry)
  /\ (action_context entry = [] ->
      _contraindicator_check config entry = false).
Proof.
  unfold _contraindicator_check.
  rewrite !ContraindicatorFacts.action_context_loop_existsb. cbn [orb].
  split; [| split].
  - rewrite existsb_exists. split.
    + intros [pair [Hin Hp]].
      apply ContraindicatorFacts.pair_contraindicates_true in Hp.
      destruct Hp as (name & assoc & -> & H). now exists name, assoc.
    + intros (name & assoc & Hin & H). exists (Some name, Some assoc).
      split; [assumption |].
      apply ContraindicatorFacts.pair_contraindicates_true.
      now exists name, assoc.
  - intros entry' Hperm.
    rewrite ContraindicatorFacts.action_context_loop_existsb. cbn [orb].
    apply eq_true_iff_eq. rewrite !existsb_exists.
    split; intros [pair [Hin Hp]]; exists pair; split; try assumption.
    + apply Permutation_in with (1 := Permutation_sym Hperm), Hin.
    + apply Permutation_in with (1 := Hperm), Hin.
  - now intros ->.
Qed.

(** C6. [_whitelist_test] returns true when the pattern list is absent or
    empty; for any pattern list it returns false exactly when some pattern
    of the list matches the stringified value at its start: a match
    excludes the value. *)
Theorem whitelist_test_match_excludes (element_value : scalar) :
  _whitelist_test element_value None = true
  /\ _whitelist_test element_value (Some []) = true
  /\ forall patterns,
       _whitelist_test element_value (Some patterns) = false <->
       exists p, In p patterns /\ re_match p (str element_value) = true.
Proof.
  split; [reflexivity | split; [reflexivity |]].
  intros patterns.
  assert (Hloop : forall l,
             whitelist_loop l element_value = false <->
             exists p, In p l /\ re_match p (str element_value) = true).
  { induction l as [| p l IH]; simpl.
    - split; [discriminate | intros [p [[] _]]].
    - destruct (re_match p (str element_value)) eqn:Hm.
      + split; [intros _; exists p; tauto | reflexivity].
      + rewrite IH. split.
        * intros [q [Hq Hmq]]. exists q. tauto.
        * intros [q [[-> | Hq] Hmq]]; [congruence | now exists q]. }
  destruct patterns as [| p l]; [| exact (Hloop (p :: l))].
  simpl. split; [discriminate | intros [p [[] _]]].
Qed.

(** C7. Pruning is idempotent: pruning the result of pruning a tree,
    against the same specification and under the same parent key, gives
    the result of the single pruning (and raises when the single pruning
    raises). *)
Theorem prune_object_properties_idempotent (supported_properties : spec)
  (parent_key : option string) (object_dict : value) :
  (pruned <- _prune_object_properties supported_properties parent_key
               object_dict ;;
   _prune_object_properties supported_properties parent_key (VDict pruned))
  = _prune_object_properties supported_properties parent_key object_dict.
Proof.
  destruct (_prune_object_properties supported_properties parent_key
              object_dict) as [pruned | e] eqn:H; [| reflexivity].
  cbn [bind]. exact (PruneFacts.prune_idempotent_at object_dict _ _ _ H).
Qed.

(** C8. The leaf that the method retains at ["a/value/value"] lies on a
    path that matches none of the configured paths, whatever their
    order. *)
Theorem retained_leaf_without_matching_path :
  _prune_object_properties two_paths None doubly_wrapped
  = Ok [("a", VDict [("value", VDict [("value", VScalar (SStr "v"))])])]
  /\ (forall candidate,
        In candidate (Dict.keys two_paths) ->
        candidate_matches "a/value/value" candidate = false)
  /\ (forall supported_properties,
        Permutation two_paths supported_properties ->
        (exists pruned,
           _prune_object_properties supported_properties None doubly_wrapped
           = Ok pruned
           /\ Dict.get pruned "a"
              = Some (VDict [("value",
                              VDict [("value", VScalar (SStr "v"))])]))
        /\ (forall candidate,
              In candidate (Dict.keys supported_properties) ->
              candidate_matches "a/value/value" candidate = false)).
Proof.
  split; [reflexivity | split].
  - intros candidate [<- | [<- | []]]; reflexivity.
  - intros sp Hperm. apply Permutation_length_2_inv in Hperm.
    destruct Hperm as [-> | ->]; split.
    + eexists. split; reflexivity.
    + intros candidate [<- | [<- | []]]; reflexivity.
    + eexists. split; reflexivity.
    + intros candidate [<- | [<- | []]]; reflexivity.
Qed.

(** C9. Whether [prune_objects] returns or raises, an entry whose Object
    is not the one it had at the call is a candidate that passed the three
    tests (supported type tag, no contraindication, required properties)
    as it was at the call.  When [prune_objects] returns, every entry
    that is not in the returned list is in the store as it was at the
    call, and every entry of the returned list is a candidate that passed
    the three tests. *)
Theorem rejected_entries_keep_their_object (config : Config) (h h' : heap)
  (candidate_indicator_objects : list loc) (outcome : result (list loc)) :
  prune_objects config h candidate_indicator_objects = (h', outcome) ->
  (forall entry,
     h' entry <> h entry ->
     In entry candidate_indicator_objects
     /\ accepts config (h entry) = true)
  /\ (forall final_indicator_objects,
        outcome = Ok final_indicator_objects ->
        (forall entry,
           ~ In entry final_indicator_objects -> h' entry = h entry)
        /\ (forall entry,
              In entry final_indicator_objects ->
              In entry candidate_indicator_objects
              /\ accepts config (h entry) = true)).
Proof.
  unfold prune_objects. intros H. split.
  - exact (prune_objects_loop_changes _ _ _ _ _ _ H).
  - intros final ->. apply prune_objects_loop_frame in H.
    destruct H as (added & -> & Hadded & Hframe). cbn [app].
    split; assumption.
Qed.

(** C10. A tree all of whose lists hold mappings (it has no list) on
    which the method raises: with three configured paths rooted at
    ["value"], in any order, the first two empty [split_key] and the
    third reads [split_key[0]]. *)
Theorem prune_raises_on_mappings_only :
  lists_of_mappings value_in_value
  /\ _prune_object_properties value_rooted None value_in_value
     = Raise IndexError
  /\ (forall supported_properties,
        Permutation value_rooted supported_properties ->
        _prune_object_properties supported_properties None value_in_value
        = Raise IndexError).
Proof.
  split; [repeat (constructor; simpl) | split; [reflexivity |]].
  intros sp Hperm. apply PathFacts.value_in_value_raises.
  - rewrite <- (Permutation_length Hperm). simpl. lia.
  - intros p Hp.
    apply (Permutation_in p (Permutation_sym (Permutation_map fst Hperm)))
      in Hp.
    destruct Hp as [<- | [<- | [<- | []]]]; reflexivity.
Qed.

End Claims.

(** * Runs *)

Section Runs.
Import IndicatorFilter View SpecWords ObjectsFacts Inputs Scenarios.
Existing Instance literal_externals.

(** C4, as stated, fails in two ways.

    On a list that holds the same entry twice: the entry passes the three
    tests, so the list of the candidates that pass them is the list
    itself, but the entry is returned once.  At its second visit its
    Object is the pruned one, which has lost the required property (the
    configuration has no contraindicator and no modifier, so the action
    context plays no part).  The run is at the libraries modelled from
    the specification; for every parser and every derivation of the
    action context, the entry is returned twice only if the properties
    that the parser builds from the dictionary that holds nothing but the
    type tag pass the required-property check for the file name.

    On an entry of a supported type one of whose lists holds a string:
    the required-property check prunes the whole tree, the string has no
    [.iteritems()], and [prune_objects] raises instead of returning,
    whatever the libraries do. *)
Lemma accepted_entries_not_always_returned :
  (snd (prune_objects colliding_config xyz_store [0; 0]) = Ok [0]
   /\ filter (fun entry => accepts colliding_config (xyz_store entry)) [0; 0]
      = [0; 0])
  /\ ~ (forall config h h' candidates final,
          prune_objects config h candidates = (h', Ok final) ->
          final = filter (fun entry => accepts config (h entry)) candidates)
  /\ (forall parse context,
        snd (@prune_objects (literal_externals_with parse context)
               colliding_config xyz_store [0; 0]) = Ok [0; 0] ->
        @_required_property_check (literal_externals_with parse context)
          {| id_ := None;
             properties := parse [("xsi:type", text "FileObjectType")] |}
          colliding_schema
        = Ok true)
  /\ (forall E : Externals,
        @prune_objects E file_config broken_store [1]
        = (broken_store, Raise AttributeError))
  /\ (forall E : Externals,
        ~ (forall config h candidates,
             NoDup candidates ->
             exists h' final,
               @prune_objects E config h candidates = (h', Ok final))).
Proof.
  split; [split; reflexivity | split; [| split; [| split]]].
  - intros Hclaim.
    specialize (Hclaim colliding_config xyz_store _ [0; 0] [0] eq_refl).
    discriminate.
  - intros parse context Hrun. unfold prune_objects in Hrun.
    rewrite prune_objects_loop_step in Hrun.
    change (@entry_step (literal_externals_with parse context)
              colliding_config (xyz_store 0))
      with (@Ok (option Object)
              (Some {| id_ := None;
                       properties :=
                         parse [("xsi:type", text "FileObjectType")] |}))
      in Hrun.
    cbv iota beta in Hrun.
    rewrite prune_objects_loop_step, set_object_same in Hrun.
    unfold entry_step in Hrun.
    cbn [object properties supported_objects colliding_config Dict.get]
      in Hrun.
    destruct (String.eqb _ "FileObjectType"); [| discriminate].
    destruct (negb _); [| discriminate].
    destruct (_required_property_check _ colliding_schema) as [[|] | e];
      [reflexivity | discriminate | discriminate].
  - intros E. reflexivity.
  - intros E Hreturns.
    destruct (Hreturns file_config broken_store [1]) as (h' & final & Hrun).
    + repeat constructor. intros [].
    + discriminate.
Qed.

(** ** The theorems at concrete inputs *)

(** C3 at [hashes]: the second element prunes to the empty dictionary and
    the sequence is dropped. *)
Lemma sequence_all_or_nothing_witness :
  exists pruned_list,
    mapM (_prune_object_properties hash_spec
            (Some (updated_key None "Hashes")))
         [VDict [("Type", text "MD5")]; VDict [("Other", text "x")]]
    = Ok pruned_list
    /\ (Dict.has (@nil (string * value)) "Hashes" = true <->
        pruned_list <> [] /\ ~ In [] pruned_list)
    /\ (Dict.has (@nil (string * value)) "Hashes" = true ->
        Dict.get [] "Hashes" = Some (VList (map VDict pruned_list)))
    /\ (forall list_item,
          In list_item
             [VDict [("Type", text "MD5")]; VDict [("Other", text "x")]] ->
          _prune_object_properties hash_spec
            (Some (updated_key None "Hashes")) list_item = Ok [] ->
          Dict.has (@nil (string * value)) "Hashes" = false).
Proof.
  apply (sequence_all_or_nothing hash_spec None hashes "Hashes").
  - repeat constructor. simpl. tauto.
  - left. reflexivity.
  - reflexivity.
Defined.

(** C2 at an Object that supplies one of two alternatives. *)
Lemma required_property_check_counts_witness :
  _required_property_check md5_only hash_schema = Ok true.
Proof.
  apply (proj1 (required_property_check_counts md5_only hash_schema)).
  split.
  - exists []. split; reflexivity.
  - intros _. exists [("Properties", VDict [("MD5", text "d41d8cd9")])].
    split; reflexivity.
Defined.

(** C5 at an entry that was deleted. *)
Lemma contraindicator_check_is_disjunction_witness :
  _contraindicator_check file_config deleted_file = true.
Proof.
  apply (proj1 (contraindicator_check_is_disjunction file_config
                  deleted_file)).
  exists "DeleteFile", "output". split; [now left |].
  split; [discriminate | split; [discriminate |]].
  left. exists "Delete". split; [now left | reflexivity].
Defined.

(** C4 at three pairwise distinct entries, of which the first is kept. *)
Lemma prune_objects_returns_accepted_witness :
  snd (prune_objects file_config file_store [0; 1; 2]) = Ok [0]
  /\ [0] = filter (fun entry => accepts file_config (file_store entry))
                  [0; 1; 2]
  /\ forall entry,
       In entry [0] ->
       exists object_type_conf full_pruned_properties,
         Dict.get (supported_objects file_config)
           (_XSI_TYPE (properties (object (file_store entry))))
         = Some object_type_conf
         /\ _prune_object_properties (full_properties object_type_conf) None
              (to_dict (properties (object (file_store entry))))
            = Ok full_pruned_properties
         /\ properties
              (object
                 (fst (prune_objects file_config file_store [0; 1; 2])
                      entry))
            = from_dict
                (Dict.set full_pruned_properties "xsi:type"
                   (VScalar
                      (SStr (_XSI_TYPE
                               (properties (object (file_store entry))))))).
Proof.
  split; [reflexivity |].
  apply (prune_objects_returns_accepted file_config file_store
           (fst (prune_objects file_config file_store [0; 1; 2]))
           [0; 1; 2] [0]).
  - repeat constructor; simpl; intuition discriminate.
  - reflexivity.
Defined.

(** C9 at the same run: the entries 1 and 2 are as they were. *)
Lemma rejected_entries_keep_their_object_witness :
  fst (prune_objects file_config file_store [0; 1; 2]) 1 = file_store 1
  /\ fst (prune_objects file_config file_store [0; 1; 2]) 2 = file_store 2.
Proof.
  assert (Hrun : prune_objects file_config file_store [0; 1; 2]
                 = (fst (prune_objects file_config file_store [0; 1; 2]),
                    Ok [0])) by reflexivity.
  destruct (rejected_entries_keep_their_object file_config file_store
              (fst (prune_objects file_config file_store [0; 1; 2]))
              [0; 1; 2] (Ok [0]) Hrun) as [_ Hreturned].
  destruct (Hreturned [0] eq_refl) as [Hkept _].
  split; apply Hkept; simpl; intuition discriminate.
Defined.

(** ** The scenarios of the specification *)

(** Scenario A: a file with its name is returned, pruned and tagged. *)
Example scenario_named_file :
  snd (prune_objects file_config file_store [0]) = Ok [0]
  /\ fields (properties
               (object (fst (prune_objects file_config file_store [0]) 0)))
     = [("Properties", VDict [("File_Name", text "evil.exe")]);
        ("xsi:type", text "FileObj")].
Proof. split; reflexivity. Qed.

(** Scenario B: a file without its name fails the required count. *)
Example scenario_nameless_file :
  _required_property_check (object nameless_file) file_schema = Ok false
  /\ snd (prune_objects file_config file_store [1]) = Ok [].
Proof. split; reflexivity. Qed.

(** Scenario C: a deleted file is excluded whatever its properties. *)
Example scenario_deleted_file :
  snd (prune_objects file_config file_store [2]) = Ok [].
Proof. reflexivity. Qed.

(** Scenario E counts top-level keys: two alternatives supplied at the
    top level fail the check; two alternatives under one top-level key
    leave one top-level key and pass it. *)
Example scenario_both_hashes :
  _required_property_check
    (file_object [("MD5", text "d41d8cd9"); ("SHA1", text "da39a3ee")])
    {| required := [];
       optional := [];
       mutually_exclusive := [("MD5", Some []); ("SHA1", Some [])] |}
  = Ok false
  /\ _required_property_check
       (file_object [("Properties", VDict [("MD5", text "d41d8cd9");
                                           ("SHA1", text "da39a3ee")])])
       hash_schema
     = Ok true.
Proof. split; reflexivity. Qed.

End Runs.

(** * Further properties *)

(** ** Helpers *)

Module FurtherFacts.
Section FurtherFacts.
Context {E : Externals}.
Import IndicatorFilter View SpecWords Invariants FurtherInvariants.
Implicit Types (sp : spec) (parent : option string) (sv : scalar).

Lemma bind_Raise {A B : Type} (m : result A) (f : A -> result B) (e : exn) :
  bind m f = Raise e <-> m = Raise e \/ exists a, m = Ok a /\ f a = Raise e.
Proof.
  destruct m as [a | e']; simpl.
  - split; [intros H; right; now exists a |].
    intros [H | [a' [[= ->] H]]]; [discriminate | exact H].
  - split; [intros [= ->]; now left |].
    intros [[= ->] | [a [H _]]]; [reflexivity | discriminate].
Qed.

Lemma mapM_Raise {A B : Type} (f : A -> result B) (l : list A) (e : exn) :
  mapM f l = Raise e -> exists x, In x l /\ f x = Raise e.
Proof.
  induction l as [| x l IH]; simpl; [discriminate |].
  intros H. apply bind_Raise in H. destruct H as [H | [y [Hy H]]].
  - exists x. tauto.
  - apply bind_Raise in H. destruct H as [H | [ys [_ H]]]; [| discriminate].
    destruct (IH H) as [x' [Hin Hx']]. exists x'. tauto.
Qed.

Lemma prune_items_Raise sp parent items acc e :
  prune_items sp parent items acc = Raise e ->
  exists k v, In (k, v) items /\ entry_outcome sp parent k v = Raise e.
Proof.
  revert acc. induction items as [| [k0 v0] items IH]; intros acc;
    [discriminate |].
  cbn [prune_items]. intros H. apply bind_Raise in H.
  destruct H as [H | [o [_ H]]].
  - exists k0, v0. split; [now left | assumption].
  - destruct (IH _ H) as (k & v & Hin & Hout). exists k, v.
    split; [now right | assumption].
Qed.

(** Entries that store nothing leave [pruned_dict] as it is. *)
Lemma prune_items_none sp parent items acc :
  (forall k v, In (k, v) items -> entry_outcome sp parent k v = Ok None) ->
  prune_items sp parent items acc = Ok acc.
Proof.
  induction items as [| [k0 v0] items IH]; intros Hnone; [reflexivity |].
  cbn [prune_items]. rewrite (Hnone k0 v0) by now left.
  cbn [bind store]. apply IH. intros k v Hin. apply Hnone. now right.
Qed.

(** The loop over the object paths looks up configured paths only. *)
Lemma object_paths_hit_no_KeyError sp paths sv sk :
  (forall p, In p paths -> In p (Dict.keys sp)) ->
  object_paths_hit sp paths sv sk <> Raise KeyError.
Proof.
  revert sk. induction paths as [| p paths IH]; intros sk Hkeys;
    [discriminate |].
  assert (Hrest : forall q, In q paths -> In q (Dict.keys sp))
    by (intros q Hq; apply Hkeys; now right).
  cbn [object_paths_hit]. destruct sk as [| root sk']; [discriminate |].
  destruct (String.eqb root _); [| now apply IH].
  destruct (forallb _ _); [| now apply IH].
  destruct (DictFacts.item_of_key sp p (Hkeys p (or_introl eq_refl)))
    as [wl ->].
  cbn [bind]. intros H. apply bind_Raise in H.
  destruct H as [H | [hit [_ H]]]; [now apply IH in H | discriminate].
Qed.

(** The top-level lookup follows the test [property_name in
    supported_properties.keys()]. *)
Lemma scalar_kept_no_KeyError sp parent name sv :
  scalar_kept sp parent name sv <> Raise KeyError.
Proof.
  unfold scalar_kept.
  destruct (negb (PyStr.truthy_opt parent) && Dict.has sp name) eqn:Htop.
  - apply andb_true_iff in Htop. destruct Htop as [_ Hhas].
    apply DictFacts.has_In_keys in Hhas.
    destruct (DictFacts.item_of_key sp name Hhas) as [wl ->]. discriminate.
  - destruct parent as [p |]; [| discriminate].
    destruct (PyStr.truthy p); [| discriminate].
    apply object_paths_hit_no_KeyError. tauto.
Qed.

Lemma prune_no_KeyError_deep (v : value) :
  no_KeyError_at v /\ (forall l, v = VList l -> Forall no_KeyError_at l).
Proof.
  induction v as [s | | d IHd | l IHl] using value_ind.
  - split; [intros sp parent; discriminate | intros l [=]].
  - split; [intros sp parent; discriminate | intros l [=]].
  - split; [| intros l [=]].
    intros sp parent H. rewrite PruneFacts.prune_dict_eq in H.
    apply prune_items_Raise in H. destruct H as (k & v & Hin & Hout).
    rewrite Forall_forall in IHd. specialize (IHd _ Hin). simpl in IHd.
    destruct IHd as [Hat Hl].
    destruct v as [s | | d' | l]; cbn [entry_outcome] in Hout.
    + apply bind_Raise in Hout. destruct Hout as [H | [a [_ H]]];
        [now apply scalar_kept_no_KeyError in H | discriminate].
    + discriminate.
    + apply bind_Raise in Hout. destruct Hout as [H | [a [_ H]]];
        [exact (Hat _ _ H) | discriminate].
    + apply bind_Raise in Hout. destruct Hout as [H | [a [_ H]]];
        [| discriminate].
      apply mapM_Raise in H. destruct H as [x [Hx Hraise]].
      specialize (Hl l eq_refl). rewrite Forall_forall in Hl.
      exact (Hl x Hx _ _ Hraise).
  - split; [intros sp parent; discriminate |].
    intros l' [= <-]. apply Forall_impl with (2 := IHl). now intros x [Hx _].
Qed.

Lemma entry_outcome_compact sp parent k v v' :
  match v with
  | VDict _ => compact_at v
  | VList l => Forall compact_at l
  | _ => True
  end ->
  entry_outcome sp parent k v = Ok (Some v') -> compact v'.
Proof.
  destruct v as [s | | d | l]; cbn [entry_outcome]; intros IH H.
  - apply bind_Ok in H. destruct H as [[|] [_ [= <-]]]. constructor.
  - discriminate.
  - apply bind_Ok in H. destruct H as [nested [Hn H]].
    destruct (Dict.nonempty nested) eqn:Hne; [| discriminate].
    injection H as <-. constructor.
    + destruct nested; [discriminate | discriminate].
    + exact (IH _ _ _ Hn).
  - apply bind_Ok in H. destruct H as [pl [Hpl H]].
    destruct (negb (Nat.eqb (List.length pl) 0) && no_empty_dict pl) eqn:Hc;
      [| discriminate].
    injection H as <-. apply andb_true_iff in Hc. destruct Hc as [Hlen Hne].
    constructor.
    + destruct pl; [discriminate | discriminate].
    + apply mapM_Ok in Hpl. unfold no_empty_dict in Hne.
      clear Hlen. induction Hpl as [| x y l pl' Hxy Hrest IHl];
        [constructor |].
      inversion IH as [| ? ? Hx Hl]; subst.
      cbn [forallb] in Hne. apply andb_true_iff in Hne.
      destruct Hne as [Hy Hne]. simpl. constructor; [| now apply IHl].
      split; [now eexists |]. constructor.
      * destruct y; [discriminate | discriminate].
      * exact (Hx _ _ _ Hxy).
Qed.

Lemma prune_compact_deep (v : value) :
  compact_at v /\ (forall l, v = VList l -> Forall compact_at l).
Proof.
  induction v as [s | | d IHd | l IHl] using value_ind.
  - split; [intros sp parent r H; discriminate | intros l [=]].
  - split; [intros sp parent r H; discriminate | intros l [=]].
  - split; [| intros l [=]].
    intros sp parent r H. rewrite PruneFacts.prune_dict_eq in H.
    apply Forall_forall. intros [k v'] Hin. cbn [snd].
    destruct (PruneFacts.prune_items_provenance _ _ _ _ _ _ _ H Hin)
      as [[] | [v [Hv Hout]]].
    apply (entry_outcome_compact sp parent k v); [| assumption].
    rewrite Forall_forall in IHd. specialize (IHd _ Hv). simpl in IHd.
    destruct IHd as [Hat Hl].
    destruct v; try exact I; [exact Hat | now apply Hl].
  - split; [intros sp parent r H; discriminate |].
    intros l' [= <-]. apply Forall_impl with (2 := IHl). now intros x [Hx _].
Qed.

Lemma prune_nothing_kept_deep (v : value) : nothing_kept_at v.
Proof.
  induction v as [s | | d IHd | l IHl] using value_ind;
    intros Hshape parent; try exact I.
  - rewrite PruneFacts.prune_dict_eq. apply prune_items_none.
    intros k v Hin. inversion Hshape as [| | ? Hd |]; subst.
    rewrite Forall_forall in IHd, Hd.
    specialize (IHd _ Hin). specialize (Hd _ Hin). simpl in IHd, Hd.
    destruct v as [s | | d' | l]; cbn [entry_outcome].
    + unfold scalar_kept. cbn [Dict.has Dict.keys map PyStr.mem existsb].
      rewrite andb_false_r.
      destruct parent as [p |]; [| reflexivity].
      now destruct (PyStr.truthy p).
    + reflexivity.
    + now rewrite (IHd Hd (Some (updated_key parent k))).
    + rewrite (IHd Hd (Some (updated_key parent k))). cbn [bind].
      now destruct l.
  - inversion Hshape as [| | | ? Hl]; subst.
    induction l as [| x l IHlist]; [reflexivity |].
    inversion IHl as [| ? ? Hx IHl']; subst.
    inversion Hl as [| ? ? [[dx ->] Hxs] Hl']; subst.
    cbn [mapM map]. rewrite (Hx Hxs parent). cbn [bind].
    now rewrite (IHlist IHl' (lom_list _ Hl') Hl').
Qed.

(** *** Dictionaries put side by side *)

Lemma prune_items_app sp parent d1 d2 acc :
  prune_items sp parent (d1 ++ d2) acc
  = (r <- prune_items sp parent d1 acc ;; prune_items sp parent d2 r).
Proof.
  revert acc. induction d1 as [| [k v] d1 IH]; intros acc; [reflexivity |].
  cbn [app prune_items].
  destruct (entry_outcome sp parent k v); cbn [bind]; [apply IH | reflexivity].
Qed.

(** Keys that [pruned_dict] does not have yet are added behind it. *)
Lemma prune_items_onto sp parent items acc :
  NoDup (Dict.keys items) ->
  (forall k, In k (Dict.keys items) -> ~ In k (Dict.keys acc)) ->
  prune_items sp parent items acc
  = (r <- prune_items sp parent items [] ;; Ok (acc ++ r)%list).
Proof.
  revert acc. induction items as [| [k v] items IH]; intros acc Hnd Hfresh.
  - cbn. now rewrite app_nil_r.
  - simpl in Hnd. inversion Hnd as [| ? ? Hk Hnd']; subst.
    cbn [prune_items].
    destruct (entry_outcome sp parent k v) as [[v' |] | e]; cbn [bind store];
      [| apply IH; [assumption | intros k' Hk'; apply Hfresh; now right]
       | reflexivity].
    rewrite (DictFacts.set_fresh acc k v') by (apply Hfresh; now left).
    rewrite (IH (acc ++ [(k, v')])%list Hnd').
    + cbn [Dict.set]. rewrite (IH [(k, v')] Hnd').
      * destruct (prune_items sp parent items []); cbn [bind];
          [now rewrite <- app_assoc | reflexivity].
      * intros k' Hk' [<- | []]. tauto.
    + intros k' Hk'. unfold Dict.keys. rewrite map_app, in_app_iff.
      intros [Hin | [<- | []]]; [| tauto].
      apply (Hfresh k'); [now right | assumption].
Qed.

Lemma prune_items_keys sp parent items r k :
  prune_items sp parent items [] = Ok r ->
  In k (Dict.keys r) -> In k (Dict.keys items).
Proof.
  intros H Hk. apply in_map_iff in Hk. destruct Hk as [[k0 v'] [Heq Hin]].
  simpl in Heq. subst k0.
  destruct (PruneFacts.prune_items_provenance _ _ _ _ _ _ _ H Hin)
    as [[] | [v [Hv _]]].
  change k with (fst (k, v)). now apply in_map.
Qed.

(** *** Patterns *)

Lemma whitelist_test_loop (element_value : scalar) (patterns : list string) :
  _whitelist_test element_value (Some patterns)
  = whitelist_loop patterns element_value.
Proof. now destruct patterns. Qed.

Lemma whitelist_loop_existsb (element_value : scalar)
  (patterns : list string) :
  whitelist_loop patterns element_value
  = negb (existsb (fun p => re_match p (str element_value)) patterns).
Proof.
  induction patterns as [| p l IH]; simpl; [reflexivity |].
  now destruct (re_match p (str element_value)).
Qed.

Lemma existsb_same_members {A : Type} (f : A -> bool) (l l' : list A) :
  (forall x, In x l <-> In x l') -> existsb f l = existsb f l'.
Proof.
  intros Hsame. apply eq_true_iff_eq. rewrite !existsb_exists.
  split; intros [x [Hin Hx]]; exists x; split; try assumption;
    now apply Hsame.
Qed.

(** *** [full_properties] *)

Lemma get_update {V : Type} (d e : dict V) (k : string) :
  Dict.wf e ->
  Dict.get (Dict.update d e) k
  = match Dict.get e k with
    | Some v => Some v
    | None => Dict.get d k
    end.
Proof.
  unfold Dict.update, Dict.wf. revert d.
  induction e as [| [k0 v0] e IH]; intros d Hwf; [reflexivity |].
  simpl in Hwf. inversion Hwf as [| ? ? Hk0 Hwf']; subst.
  cbn [fold_left fst snd Dict.get]. rewrite (IH _ Hwf').
  destruct (String.eqb k k0) eqn:Heq.
  - apply String.eqb_eq in Heq. subst k0.
    destruct (Dict.get e k) as [v |] eqn:Hget.
    + exfalso. apply Hk0. apply DictFacts.has_In_keys, DictFacts.has_get.
      now exists v.
    + apply DictFacts.get_set_same.
  - destruct (Dict.get e k); [reflexivity |].
    apply DictFacts.get_set_other. intros ->.
    now rewrite String.eqb_refl in Heq.
Qed.

(** *** The loop of [prune_objects] *)

Lemma prune_objects_loop_final config cands h final :
  prune_objects_loop config cands h final
  = (fst (prune_objects_loop config cands h []),
     out <- snd (prune_objects_loop config cands h []) ;;
     Ok (final ++ out)%list).
Proof.
  revert h final. induction cands as [| entry rest IH]; intros h final.
  - cbn. now rewrite app_nil_r.
  - rewrite !ObjectsFacts.prune_objects_loop_step.
    destruct (entry_step config (h entry)) as [[o |] | e];
      [| apply IH | reflexivity].
    rewrite (IH _ (final ++ [entry])%list), (IH _ ([] ++ [entry])%list).
    cbn [fst snd app].
    destruct (snd (prune_objects_loop config rest (set_object h entry o) []));
      cbn [bind]; [now rewrite <- app_assoc | reflexivity].
Qed.

Lemma prune_objects_loop_app config c1 c2 h final :
  prune_objects_loop config (c1 ++ c2) h final
  = match prune_objects_loop config c1 h final with
    | (h1, Ok out1) => prune_objects_loop config c2 h1 out1
    | (h1, Raise e) => (h1, Raise e)
    end.
Proof.
  revert h final. induction c1 as [| entry rest IH]; intros h final.
  - reflexivity.
  - cbn [app]. rewrite !ObjectsFacts.prune_objects_loop_step.
    destruct (entry_step config (h entry)) as [[o |] | e];
      [apply IH | apply IH | reflexivity].
Qed.

Lemma prune_objects_loop_subseq config cands h final h' out :
  prune_objects_loop config cands h final = (h', Ok out) ->
  exists added, out = (final ++ added)%list /\ subseq added cands.
Proof.
  revert h final. induction cands as [| entry rest IH]; intros h final.
  - intros [= <- <-]. exists []. rewrite app_nil_r.
    split; [reflexivity | constructor].
  - rewrite ObjectsFacts.prune_objects_loop_step.
    destruct (entry_step config (h entry)) as [[o |] | e];
      [| | discriminate]; intros H; apply IH in H;
      destruct H as (added & -> & Hsub).
    + exists (entry :: added). rewrite <- app_assoc.
      split; [reflexivity | now constructor].
    + exists added. split; [reflexivity | now constructor].
Qed.

Lemma subseq_length {A : Type} (l l' : list A) :
  subseq l l' -> List.length l <= List.length l'.
Proof. induction 1; simpl; lia. Qed.

Lemma subseq_incl {A : Type} (l l' : list A) : subseq l l' -> incl l l'.
Proof.
  induction 1 as [| x l l' _ IH | x l l' _ IH]; intros y Hy.
  - assumption.
  - right. now apply IH.
  - destruct Hy as [<- | Hy]; [now left | right; now apply IH].
Qed.

End FurtherFacts.
End FurtherFacts.

(** ** What [_prune_object_properties] keeps *)

Section FurtherPruning.
Context {E : Externals}.
Import IndicatorFilter View SpecWords Invariants FurtherInvariants.

(** X1. At the top level (no parent key, or the empty one) a scalar
    property is kept exactly when its name is itself a configured path
    and the patterns of that path accept its value; it is kept with its
    value.  Configured paths that merely start with the name play no
    part. *)
Theorem top_level_scalar_kept_iff_listed (supported_properties : spec)
  (parent_key : option string) (object_dict : dict value)
  (property_name : string) (property_value : scalar)
  (pruned_dict : dict value) :
  PyStr.truthy_opt parent_key = false ->
  Dict.wf object_dict ->
  In (property_name, VScalar property_value) object_dict ->
  _prune_object_properties supported_properties parent_key
    (VDict object_dict) = Ok pruned_dict ->
  Dict.get pruned_dict property_name
  = match Dict.get supported_properties property_name with
    | Some whitelist =>
        if _whitelist_test property_value whitelist
        then Some (VScalar property_value) else None
    | None => None
    end.
Proof.
  intros Htop Hwf Hin Hprune. rewrite PruneFacts.prune_dict_eq in Hprune.
  pose proof (PruneFacts.prune_items_get _ _ _ _ _ _ _ Hprune Hwf Hin
                (fun H => H)) as Hout.
  cbn [entry_outcome] in Hout. apply bind_Ok in Hout.
  destruct Hout as [kept [Hkept Hget]]. injection Hget as Hget.
  rewrite <- Hget. unfold scalar_kept in Hkept. rewrite Htop in Hkept.
  cbn [negb andb] in Hkept.
  destruct (Dict.has supported_properties property_name) eqn:Hhas.
  - apply bind_Ok in Hkept. destruct Hkept as [wl [Hwl [= <-]]].
    apply DictFacts.item_get in Hwl. now rewrite Hwl.
  - assert (Hnone : Dict.get supported_properties property_name = None).
    { destruct (Dict.get supported_properties property_name) as [wl |] eqn:Hg;
        [| reflexivity].
      assert (Dict.has supported_properties property_name = true)
        by (apply DictFacts.has_get; now exists wl).
      congruence. }
    rewrite Hnone. destruct parent_key as [p |].
    + cbn [PyStr.truthy_opt] in Htop. rewrite Htop in Hkept.
      now injection Hkept as <-.
    + now injection Hkept as <-.
Qed.

(** X2. A property whose value is a dictionary is kept exactly when the
    dictionary, pruned under the path extended by the property name, is
    not empty; it is kept with the pruned dictionary. *)
Theorem mapping_kept_iff_nonempty (supported_properties : spec)
  (parent_key : option string) (object_dict : dict value)
  (property_name : string) (property_value : dict value)
  (pruned_dict : dict value) :
  Dict.wf object_dict ->
  In (property_name, VDict property_value) object_dict ->
  _prune_object_properties supported_properties parent_key
    (VDict object_dict) = Ok pruned_dict ->
  exists pruned_nested_dict,
    _prune_object_properties supported_properties
      (Some (updated_key parent_key property_name)) (VDict property_value)
    = Ok pruned_nested_dict
    /\ Dict.get pruned_dict property_name
       = if Dict.nonempty pruned_nested_dict
         then Some (VDict pruned_nested_dict) else None.
Proof.
  intros Hwf Hin Hprune. rewrite PruneFacts.prune_dict_eq in Hprune.
  pose proof (PruneFacts.prune_items_get _ _ _ _ _ _ _ Hprune Hwf Hin
                (fun H => H)) as Hout.
  cbn [entry_outcome] in Hout. apply bind_Ok in Hout.
  destruct Hout as [nested [Hnested Hget]]. injection Hget as Hget.
  exists nested. split; [assumption | now symmetry].
Qed.

(** X6. Below its root the pruned tree has no empty dictionary, no empty
    list and no value other than scalars, dictionaries and lists of
    dictionaries. *)
Theorem pruned_values_are_compact (supported_properties : spec)
  (parent_key : option string) (object_dict : value)
  (pruned_dict : dict value) :
  _prune_object_properties supported_properties parent_key object_dict
  = Ok pruned_dict ->
  Forall (fun kv => compact (snd kv)) pruned_dict.
Proof.
  intros H.
  destruct (FurtherFacts.prune_compact_deep object_dict) as [Hat _].
  exact (Hat _ _ _ H).
Qed.

(** X7. Against the empty specification the method returns the empty
    dictionary on every dictionary whose lists hold mappings, and it
    returns nothing else. *)
Theorem empty_specification_keeps_nothing (parent_key : option string)
  (object_dict : dict value) :
  (_prune_object_properties [] parent_key (VDict object_dict) = Ok []
   <-> lists_of_mappings (VDict object_dict))
  /\ (forall pruned_dict,
        _prune_object_properties [] parent_key (VDict object_dict)
        = Ok pruned_dict ->
        pruned_dict = []).
Proof.
  assert (Hback : lists_of_mappings (VDict object_dict) ->
                  _prune_object_properties [] parent_key (VDict object_dict)
                  = Ok []).
  { intros Hshape.
    exact (FurtherFacts.prune_nothing_kept_deep (VDict object_dict) Hshape
             parent_key). }
  split.
  - split; [apply ShapeFacts.prune_Ok_lists_of_mappings | exact Hback].
  - intros pruned_dict H.
    pose proof (ShapeFacts.prune_Ok_lists_of_mappings _ _ _ _ H) as Hshape.
    rewrite (Hback Hshape) in H. now injection H.
Qed.

(** X8. The method never raises [KeyError]: it looks up
    [supported_properties[property_name]] after the test
    [property_name in supported_properties.keys()], and
    [supported_properties[object_path]] for paths taken from
    [supported_properties.keys()]. *)
Theorem prune_never_raises_KeyError (supported_properties : spec)
  (parent_key : option string) (object_dict : value) :
  _prune_object_properties supported_properties parent_key object_dict
  <> Raise KeyError.
Proof.
  destruct (FurtherFacts.prune_no_KeyError_deep object_dict) as [Hat _].
  exact (Hat supported_properties parent_key).
Qed.

(** X9. The method returns only on a dictionary all of whose lists, at
    every depth and whether or not a configured path leads to them, hold
    dictionaries: the whole tree is walked, and a list element that is
    not a dictionary has no [.iteritems()]. *)
Theorem prune_returns_only_on_lists_of_mappings (supported_properties : spec)
  (parent_key : option string) (object_dict : value)
  (pruned_dict : dict value) :
  _prune_object_properties supported_properties parent_key object_dict
  = Ok pruned_dict ->
  (exists d, object_dict = VDict d) /\ lists_of_mappings object_dict.
Proof.
  intros H. split.
  - exact (ShapeFacts.prune_Ok_is_dict _ _ _ _ H).
  - exact (ShapeFacts.prune_Ok_lists_of_mappings _ _ _ _ H).
Qed.

(** X11. Pruning a dictionary made of two dictionaries with disjoint keys
    is pruning each and putting the results side by side; it raises when
    one of the two raises. *)
Theorem prune_side_by_side (supported_properties : spec)
  (parent_key : option string) (d1 d2 : dict value) :
  Dict.wf (d1 ++ d2)%list ->
  _prune_object_properties supported_properties parent_key
    (VDict (d1 ++ d2)%list)
  = (r1 <- _prune_object_properties supported_properties parent_key
             (VDict d1) ;;
     r2 <- _prune_object_properties supported_properties parent_key
             (VDict d2) ;;
     Ok (r1 ++ r2)%list).
Proof.
  intros Hwf. rewrite !PruneFacts.prune_dict_eq.
  rewrite FurtherFacts.prune_items_app.
  destruct (prune_items supported_properties parent_key d1 [])
    as [r1 | e] eqn:Hr1; cbn [bind]; [| reflexivity].
  unfold Dict.wf, Dict.keys in Hwf. rewrite map_app in Hwf.
  apply FurtherFacts.prune_items_onto.
  - now apply NoDup_app_remove_l in Hwf.
  - intros k Hk2 Hk1.
    apply (FurtherFacts.prune_items_keys _ _ _ _ _ Hr1) in Hk1.
    revert Hk1 Hk2. clear -Hwf. unfold Dict.keys.
    induction (map fst d1) as [| k1 l1 IH]; [intros [] |].
    simpl in Hwf. inversion Hwf as [| ? ? Hfresh Hwf']; subst.
    intros [<- | Hk1] Hk2.
    + apply Hfresh. apply in_app_iff. now right.
    + now apply IH.
Qed.

(** X12. A value passes a pattern list exactly when it passes each part
    of it, and only the set of the patterns matters, not their order or
    their repetitions. *)
Theorem whitelist_test_of_all_patterns (element_value : scalar)
  (l1 l2 : list string) :
  _whitelist_test element_value (Some (l1 ++ l2)%list)
  = _whitelist_test element_value (Some l1)
    && _whitelist_test element_value (Some l2)
  /\ ((forall p, In p l1 <-> In p l2) ->
      _whitelist_test element_value (Some l1)
      = _whitelist_test element_value (Some l2)).
Proof.
  rewrite !FurtherFacts.whitelist_test_loop,
    !FurtherFacts.whitelist_loop_existsb.
  split.
  - rewrite existsb_app. apply negb_orb.
  - intros Hsame. f_equal. now apply FurtherFacts.existsb_same_members.
Qed.

End FurtherPruning.

(** ** What the checks and [prune_objects] do *)

Section FurtherChecks.
Context {E : Externals}.
Import IndicatorFilter View SpecWords ObjectsFacts.

(** X13. The check of an action context made of two parts is the
    disjunction of the checks of the parts: adding actions to a history
    never clears a contraindication, and the Object itself plays no
    part. *)
Theorem contraindicator_check_app (config : Config) (o o1 o2 : Object)
  (c1 c2 : list (option string * option string)) :
  _contraindicator_check config
    {| object := o; action_context := (c1 ++ c2)%list |}
  = _contraindicator_check config {| object := o1; action_context := c1 |}
    || _contraindicator_check config {| object := o2; action_context := c2 |}.
Proof.
  unfold _contraindicator_check. cbn [action_context].
  rewrite !ContraindicatorFacts.action_context_loop_existsb. cbn [orb].
  apply existsb_app.
Qed.

(** X14. The check depends on the configured contraindicators and
    modifiers only as sets: two configurations with the same strings, in
    any order and with any repetitions, give the same answer. *)
Theorem contraindicator_check_same_strings (config config' : Config)
  (entry : ObjectHistoryEntry) :
  (forall c, In c (contraindicators config)
             <-> In c (contraindicators config')) ->
  (forall m, In m (modifiers config) <-> In m (modifiers config')) ->
  _contraindicator_check config entry = _contraindicator_check config' entry.
Proof.
  intros Hc Hm. unfold _contraindicator_check.
  rewrite !ContraindicatorFacts.action_context_loop_existsb. cbn [orb].
  induction (action_context entry) as [| [name assoc] ctx IH];
    [reflexivity |].
  cbn [existsb]. rewrite IH. f_equal.
  unfold pair_contraindicates.
  destruct name as [name |], assoc as [assoc |]; try reflexivity.
  rewrite (FurtherFacts.existsb_same_members _ _ _ Hc),
    (FurtherFacts.existsb_same_members _ _ _ Hm).
  reflexivity.
Qed.

(** X15. Every string contains the empty string: with [""] among the
    configured contraindicators an entry is contraindicated exactly when
    its action context has a pair both of whose components are
    non-empty, whatever the action is. *)
Theorem empty_contraindicator_matches_every_name (config : Config)
  (entry : ObjectHistoryEntry) :
  In "" (contraindicators config) ->
  (_contraindicator_check config entry = true <->
   exists name assoc,
     In (Some name, Some assoc) (action_context entry)
     /\ name <> "" /\ assoc <> "").
Proof.
  intros Hempty. unfold _contraindicator_check.
  rewrite ContraindicatorFacts.action_context_loop_existsb. cbn [orb].
  rewrite existsb_exists. split.
  - intros [pair [Hin Hp]].
    apply ContraindicatorFacts.pair_contraindicates_true in Hp.
    destruct Hp as (name & assoc & -> & Hn & Ha & _). now exists name, assoc.
  - intros (name & assoc & Hin & Hn & Ha). exists (Some name, Some assoc).
    split; [assumption |].
    apply ContraindicatorFacts.pair_contraindicates_true.
    exists name, assoc. repeat split; try assumption.
    left. exists "". split; [assumption |]. now destruct name.
Qed.

(** X16. In [full_properties] a path configured in more than one of the
    three specifications has the patterns of the last one updated:
    mutually exclusive before optional before required. *)
Theorem full_properties_precedence (object_type_conf : ObjectTypeSchema)
  (object_path : string) :
  Dict.wf (required object_type_conf) ->
  Dict.wf (optional object_type_conf) ->
  Dict.wf (mutually_exclusive object_type_conf) ->
  Dict.get (full_properties object_type_conf) object_path
  = match Dict.get (mutually_exclusive object_type_conf) object_path with
    | Some whitelist => Some whitelist
    | None =>
        match Dict.get (optional object_type_conf) object_path with
        | Some whitelist => Some whitelist
        | None => Dict.get (required object_type_conf) object_path
        end
    end.
Proof.
  intros Hreq Hopt Hme. unfold full_properties.
  rewrite (FurtherFacts.get_update _ _ _ Hme),
    (FurtherFacts.get_update _ _ _ Hopt),
    (FurtherFacts.get_update _ _ _ Hreq).
  cbn [Dict.get].
  now destruct (Dict.get (required object_type_conf) object_path).
Qed.

(** X17. Running [prune_objects] on a list made of two lists is running
    it on the first and then, on the store that leaves, on the second;
    the returned lists are put one after the other, and an exception of
    the first run ends the whole run. *)
Theorem prune_objects_app (config : Config) (h : heap) (c1 c2 : list loc) :
  prune_objects config h (c1 ++ c2)%list
  = match prune_objects config h c1 with
    | (h1, Raise e) => (h1, Raise e)
    | (h1, Ok out1) =>
        (fst (prune_objects config h1 c2),
         out2 <- snd (prune_objects config h1 c2) ;;
         Ok (out1 ++ out2)%list)
    end.
Proof.
  unfold prune_objects. rewrite FurtherFacts.prune_objects_loop_app.
  destruct (prune_objects_loop config c1 h []) as [h1 [out1 | e]];
    [| reflexivity].
  apply FurtherFacts.prune_objects_loop_final.
Qed.

(** X19. For every list, repeated entries included, the list that
    [prune_objects] returns is the list of the candidates with some of
    them left out: same order, nothing added, never longer. *)
Theorem prune_objects_returns_subsequence (config : Config) (h h' : heap)
  (candidate_indicator_objects final_indicator_objects : list loc) :
  prune_objects config h candidate_indicator_objects
  = (h', Ok final_indicator_objects) ->
  subseq final_indicator_objects candidate_indicator_objects
  /\ List.length final_indicator_objects
     <= List.length candidate_indicator_objects.
Proof.
  unfold prune_objects. intros H.
  apply FurtherFacts.prune_objects_loop_subseq in H.
  destruct H as (added & -> & Hsub). cbn [app].
  split; [assumption | now apply FurtherFacts.subseq_length].
Qed.

(** X20. The type tag and the action context are tested before any
    property is looked at: when every candidate has an unsupported type
    tag or is contraindicated, [prune_objects] returns the empty list and
    leaves the store as it is, whatever the property trees hold. *)
Theorem prune_objects_skips_before_pruning (config : Config) (h : heap)
  (candidate_indicator_objects : list loc) :
  (forall entry,
     In entry candidate_indicator_objects ->
     Dict.get (supported_objects config)
       (_XSI_TYPE (properties (object (h entry)))) = None
     \/ _contraindicator_check config (h entry) = true) ->
  prune_objects config h candidate_indicator_objects = (h, Ok []).
Proof.
  unfold prune_objects. generalize (@nil loc) as final.
  induction candidate_indicator_objects as [| entry rest IH];
    intros final Hskip; [reflexivity |].
  rewrite prune_objects_loop_step.
  assert (Hstep : entry_step config (h entry) = Ok None).
  { unfold entry_step.
    destruct (Hskip entry (or_introl eq_refl)) as [-> | Hcontra];
      [reflexivity |].
    rewrite Hcontra.
    now destruct (Dict.get (supported_objects config) _). }
  rewrite Hstep. apply IH. intros e He. apply Hskip. now right.
Qed.

(** X22. [_required_property_check] returns a truth value only on an
    Object all of whose lists, at every depth, hold dictionaries: the
    check prunes the whole tree of the Object against the required
    paths. *)
Theorem required_property_check_returns_only_on_lists_of_mappings
  (o : Object) (schema : ObjectTypeSchema) (properties_found : bool) :
  _required_property_check o schema = Ok properties_found ->
  lists_of_mappings (to_dict (properties o)).
Proof.
  intros H. unfold _required_property_check in H.
  apply bind_Ok in H. destruct H as [pruned [Hpruned _]].
  exact (ShapeFacts.prune_Ok_lists_of_mappings _ _ _ _ Hpruned).
Qed.

(** X23. Configuring more contraindicators or more modifiers can only
    contraindicate more: an entry contraindicated under a configuration
    is contraindicated under every configuration that lists at least the
    same strings. *)
Theorem contraindicator_check_monotone (config config' : Config)
  (entry : ObjectHistoryEntry) :
  incl (contraindicators config) (contraindicators config') ->
  incl (modifiers config) (modifiers config') ->
  _contraindicator_check config entry = true ->
  _contraindicator_check config' entry = true.
Proof.
  intros Hc Hm. unfold _contraindicator_check.
  rewrite !ContraindicatorFacts.action_context_loop_existsb. cbn [orb].
  rewrite !existsb_exists. intros [pair [Hin Hp]]. exists pair.
  split; [assumption |].
  apply ContraindicatorFacts.pair_contraindicates_true in Hp.
  apply ContraindicatorFacts.pair_contraindicates_true.
  destruct Hp as (name & assoc & -> & Hn & Ha & Hwhy).
  exists name, assoc. repeat split; try assumption.
  destruct Hwhy as [[c [Hcin Hcc]] | [[m [Hmin Hmc]] Hinput]].
  - left. exists c. split; [now apply Hc | assumption].
  - right. split; [| assumption]. exists m. split; [now apply Hm | assumption].
Qed.

End FurtherChecks.

(** ** The further theorems at concrete inputs *)

Section FurtherRuns.
Import IndicatorFilter View SpecWords ObjectsFacts.
Import Inputs Scenarios FurtherInputs.
Existing Instance literal_externals.

(** X1 at a name that a pattern does not match. *)
Lemma top_level_scalar_kept_iff_listed_witness :
  Dict.get [("Name", text "evil.exe"); ("Size", VScalar (SInt 42))] "Name"
  = Some (text "evil.exe").
Proof.
  refine (eq_trans
            (top_level_scalar_kept_iff_listed top_spec None top_object "Name"
               (SStr "evil.exe")
               [("Name", text "evil.exe"); ("Size", VScalar (SInt 42))]
               _ _ _ _) _).
  - reflexivity.
  - repeat (apply NoDup_cons; [simpl; intuition discriminate |]).
    apply NoDup_nil.
  - left. reflexivity.
  - reflexivity.
  - reflexivity.
Defined.

(** X2 at the properties of a named file. *)
Lemma mapping_kept_iff_nonempty_witness :
  exists pruned_nested_dict,
    _prune_object_properties name_spec (Some "Properties")
      (VDict [("File_Name", text "evil.exe")])
    = Ok pruned_nested_dict
    /\ Dict.get [("Properties", VDict [("File_Name", text "evil.exe")])]
         "Properties"
       = if Dict.nonempty pruned_nested_dict
         then Some (VDict pruned_nested_dict) else None.
Proof.
  apply (mapping_kept_iff_nonempty name_spec None
           [("Properties", VDict [("File_Name", text "evil.exe")])]
           "Properties" [("File_Name", text "evil.exe")]).
  - repeat (apply NoDup_cons; [simpl; intuition discriminate |]).
    apply NoDup_nil.
  - left. reflexivity.
  - reflexivity.
Defined.

(** X3 at a name wrapped in one ["value"]. *)
Lemma nested_scalar_rule_one_wrapper_witness :
  Dict.has wrapped_name "value" = true <->
  nested_scalar_included name_spec "Properties/File_Name/value"
    (SStr "evil.exe") = true.
Proof.
  apply (PathFacts.nested_scalar_rule_one_wrapper name_spec
           "Properties/File_Name" wrapped_name "value" (SStr "evil.exe")
           wrapped_name).
  - reflexivity.
  - repeat (apply NoDup_cons; [simpl; intuition discriminate |]).
    apply NoDup_nil.
  - left. reflexivity.
  - reflexivity.
  - vm_compute. discriminate.
  - reflexivity.
Defined.

(** X4 at the scalar kept under two ["value"] keys. *)
Lemma retained_scalar_accepted_witness :
  exists object_path whitelist,
    In object_path (Dict.keys two_paths)
    /\ Dict.get two_paths object_path = Some whitelist
    /\ _whitelist_test (SStr "v") whitelist = true
    /\ hd "" (PyStr.split slash object_path)
       = hd "" (PyStr.split slash (updated_key (Some "a/value") "value"))
    /\ (PyStr.truthy_opt (Some "a/value") = false -> object_path = "value").
Proof.
  apply (PathFacts.retained_scalar_accepted two_paths (Some "a/value")
           [("value", text "v")] "value" (SStr "v") [("value", text "v")]).
  - repeat (apply NoDup_cons; [simpl; intuition discriminate |]).
    apply NoDup_nil.
  - left. reflexivity.
  - reflexivity.
  - reflexivity.
Defined.

(** X5 at an Object with more properties than are configured. *)
Lemma prune_invents_nothing_witness :
  within
    (VDict [("Name", text "evil.exe");
            ("Properties", VDict [("File_Name", text "a.txt")])])
    (VDict top_object).
Proof.
  apply (ShapeFacts.prune_invents_nothing both_spec None (VDict top_object)).
  reflexivity.
Defined.

(** X6 at the same Object. *)
Lemma pruned_values_are_compact_witness :
  Forall (fun kv => compact (snd kv))
    [("Name", text "evil.exe");
     ("Properties", VDict [("File_Name", text "a.txt")])].
Proof.
  apply (pruned_values_are_compact both_spec None (VDict top_object)).
  reflexivity.
Defined.

(** X9 at an Object with more properties than are configured. *)
Lemma prune_returns_only_on_lists_of_mappings_witness :
  _prune_object_properties both_spec None (VDict top_object)
  = Ok [("Name", text "evil.exe");
        ("Properties", VDict [("File_Name", text "a.txt")])]
  /\ (exists d, VDict top_object = VDict d)
  /\ lists_of_mappings (VDict top_object).
Proof.
  split; [reflexivity |].
  apply (prune_returns_only_on_lists_of_mappings both_spec None
           (VDict top_object)
           [("Name", text "evil.exe");
            ("Properties", VDict [("File_Name", text "a.txt")])]).
  reflexivity.
Defined.

(** X10 at two properties enumerated in the other order. *)
Lemma prune_order_irrelevant_witness :
  exists r',
    _prune_object_properties both_spec None
      (VDict (right_part ++ left_part)%list) = Ok r'
    /\ forall k,
         Dict.get r' k
         = Dict.get [("Name", text "evil.exe");
                     ("Properties", VDict [("File_Name", text "a.txt")])] k.
Proof.
  apply (ShapeFacts.prune_order_irrelevant both_spec None
           (left_part ++ right_part)%list (right_part ++ left_part)%list).
  - repeat (apply NoDup_cons; [simpl; intuition discriminate |]).
    apply NoDup_nil.
  - apply perm_swap.
  - reflexivity.
Defined.

(** X11 at the same two properties. *)
Lemma prune_side_by_side_witness :
  _prune_object_properties both_spec None
    (VDict (left_part ++ right_part)%list)
  = (r1 <- _prune_object_properties both_spec None (VDict left_part) ;;
     r2 <- _prune_object_properties both_spec None (VDict right_part) ;;
     Ok (r1 ++ r2)%list).
Proof.
  apply (prune_side_by_side both_spec None left_part right_part).
  repeat (apply NoDup_cons; [simpl; intuition discriminate |]).
  apply NoDup_nil.
Defined.

(** X14 at a configuration that repeats a contraindicator. *)
Lemma contraindicator_check_same_strings_witness :
  _contraindicator_check file_config deleted_file
  = _contraindicator_check reordered_config deleted_file.
Proof.
  apply (contraindicator_check_same_strings file_config reordered_config
           deleted_file); simpl; intuition.
Defined.

(** X15 at a file that was only created. *)
Lemma empty_contraindicator_matches_every_name_witness :
  _contraindicator_check empty_contraindicator created_file = true <->
  exists name assoc,
    In (Some name, Some assoc) (action_context created_file)
    /\ name <> "" /\ assoc <> "".
Proof.
  apply (empty_contraindicator_matches_every_name empty_contraindicator
           created_file).
  left. reflexivity.
Defined.

(** X16 at a path that is both required and optional. *)
Lemma full_properties_precedence_witness :
  Dict.get (full_properties colliding_schema) "file_name" = Some (Some ["x"]).
Proof.
  apply (full_properties_precedence colliding_schema "file_name").
  - repeat (apply NoDup_cons; [simpl; intuition discriminate |]).
    apply NoDup_nil.
  - repeat (apply NoDup_cons; [simpl; intuition discriminate |]).
    apply NoDup_nil.
  - apply NoDup_nil.
Defined.

(** X19 at three entries, of which the first is kept. *)
Lemma prune_objects_returns_subsequence_witness :
  subseq [0] [0; 1; 2] /\ List.length [0] <= List.length [0; 1; 2].
Proof.
  apply (prune_objects_returns_subsequence file_config file_store
           (fst (prune_objects file_config file_store [0; 1; 2]))).
  reflexivity.
Defined.

(** X20 at entries of an unsupported type whose list holds a string. *)
Lemma prune_objects_skips_before_pruning_witness :
  prune_objects file_config odd_store [0; 1] = (odd_store, Ok []).
Proof.
  apply (prune_objects_skips_before_pruning file_config odd_store [0; 1]).
  intros entry _. left. reflexivity.
Defined.

(** X22 at an Object that supplies one alternative. *)
Lemma required_property_check_returns_only_on_lists_of_mappings_witness :
  _required_property_check md5_only hash_schema = Ok true
  /\ lists_of_mappings (to_dict (properties md5_only)).
Proof.
  split; [reflexivity |].
  apply (required_property_check_returns_only_on_lists_of_mappings md5_only
           hash_schema true).
  reflexivity.
Defined.

(** X23 at a configuration with more strings. *)
Lemma contraindicator_check_monotone_witness :
  _contraindicator_check more_strings_config deleted_file = true.
Proof.
  apply (contraindicator_check_monotone file_config more_strings_config
           deleted_file).
  - intros c [<- | []]. right. now left.
  - intros m [<- | []]. now left.
  - reflexivity.
Defined.

End FurtherRuns.
